(** * The stage pipeline controller of gmx-vmd-mcp

    A shallow embedding of [mcp_gmx_vmd/gromacs.py] (the process invocation
    gateway), [mcp_gmx_vmd/models.py] (the status record) and
    [mcp_gmx_vmd/simulation.py] (the [SimulationWorkflow] controller, its
    progress monitor and its checkpoint store), followed by the properties
    of the pipeline stated over that embedding.

    Conventions of the embedding:
    - Python [str] values are [string]s (the UTF-8 bytes of the text).
    - The file store is keyed by paths relative to the workflow's working
      directory ([self.work_dir], which is also the process's current
      directory and the gateway's [cwd]).  Regular files and directories
      live in two name spaces: [files] maps the path of a regular file to
      its content, [dirs] is the set of existing directories.  The
      embedding follows the source on stores where a path the source
      opens, copies or creates has the kind the source expects and a file
      it reads as text decodes; what [open], [readlines], [mkdir] and
      [shutil.copy2] raise otherwise is outside of it, and the properties
      that depend on it say so in a hypothesis ([plain_layout],
      [ascii_text], [plain_id]).
    - The lines the [logging] handlers append to
      [logs/simulation_<time>.log] on every [logger] call are not part of
      the store.
    - [async] methods are run to completion one after the other: every
      [await] in the source is awaited before the next statement, so a
      method is a state transformer.  What the outside world does to the
      file store while a process runs or while the monitor sleeps is given
      by two oracles, [spawn] and [sleep].
    - An unbounded [while True] loop takes a fuel argument; running out of
      fuel is the outcome [Hang], never a result. *)

From Stdlib Require Import ZArith Ascii String.
From stdpp Require Import base gmap strings list fin_maps.

Open Scope string_scope.
Open Scope Z_scope.

(** ** models.py *)

Inductive SimulationStep :=
  | SYSTEM_PREPARATION
  | MINIMIZATION
  | NVT_EQUILIBRATION
  | NPT_EQUILIBRATION
  | PRODUCTION
  | ANALYSIS.

#[global] Instance SimulationStep_eq_dec : EqDecision SimulationStep.
Proof. solve_decision. Defined.

Definition step_index (s : SimulationStep) : nat :=
  match s with
  | SYSTEM_PREPARATION => 0
  | MINIMIZATION => 1
  | NVT_EQUILIBRATION => 2
  | NPT_EQUILIBRATION => 3
  | PRODUCTION => 4
  | ANALYSIS => 5
  end%nat.

Definition step_of_index (n : nat) : SimulationStep :=
  match n with
  | 0 => SYSTEM_PREPARATION
  | 1 => MINIMIZATION
  | 2 => NVT_EQUILIBRATION
  | 3 => NPT_EQUILIBRATION
  | 4 => PRODUCTION
  | _ => ANALYSIS
  end%nat.

#[global] Instance SimulationStep_countable : Countable SimulationStep.
Proof.
  apply (inj_countable' step_index step_of_index).
  intros []; reflexivity.
Defined.

(** [step.value]: the string each member of the enumeration stands for. *)
Definition value (s : SimulationStep) : string :=
  match s with
  | SYSTEM_PREPARATION => "system_preparation"
  | MINIMIZATION => "minimization"
  | NVT_EQUILIBRATION => "nvt_equilibration"
  | NPT_EQUILIBRATION => "npt_equilibration"
  | PRODUCTION => "production"
  | ANALYSIS => "analysis"
  end.

Record SimulationStatus := mkStatus {
  current_step : option SimulationStep;
  completed_steps : list SimulationStep;
  errors : gmap SimulationStep string;
  start_time : option string;
  end_time : option string
}.

(** [SimulationStatus()]: every field at its default. *)
Definition new_status : SimulationStatus :=
  {| current_step := None; completed_steps := []; errors := ∅;
     start_time := None; end_time := None |}.

(** ** gromacs.py *)

Record Context := mkContext {
  working_dir : string;
  gmx_path : string
}.

(** [Context.__init__]: [working_dir] falls back to the current directory,
    [gmx_path or "gmx"] replaces a missing or empty path by ["gmx"]. *)
Definition new_Context (cwd : string) (wd gp : option string) : Context :=
  {| working_dir := match wd with
                    | Some d => if decide (d = "") then cwd else d
                    | None => cwd
                    end;
     gmx_path := match gp with
                 | Some p => if decide (p = "") then "gmx" else p
                 | None => "gmx"
                 end |}.

Record GromacsCmdResult := mkResult {
  stdout : string;
  stderr : string;
  return_code : Z;
  command : string;
  success : bool
}.

(** One entry of [ctx.log]. *)
Record LogEntry := mkLogEntry {
  log_command : string;
  log_return_code : Z;
  log_stdout : string;
  log_stderr : string
}.

(** [" ".join(words)]. *)
Fixpoint join_words (words : list string) : string :=
  match words with
  | [] => ""
  | [w] => w
  | w :: rest => w +:+ " " +:+ join_words rest
  end.

(** Lines 41-48 of [run_gromacs_command]: the command line. *)
Definition full_cmd (ctx : Context) (cmd : string) (args : list string)
  : list string :=
  if decide (gmx_path ctx = "gmx")
  then [gmx_path ctx; cmd] ++ args
  else [cmd] ++ args.

(** ** The file store *)

Record FileSystem := mkFS {
  files : gmap string string;
  dirs : gset string
}.

Definition file_exists (f : FileSystem) (p : string) : bool :=
  bool_decide (is_Some (files f !! p)).

Definition dir_exists (f : FileSystem) (p : string) : bool :=
  bool_decide (p ∈ dirs f).

(** [open(p, 'w').write(text)]. *)
Definition write_file (p text : string) (f : FileSystem) : FileSystem :=
  {| files := <[p := text]> (files f); dirs := dirs f |}.

(** [shutil.copy2(src, dst)] on regular files; [None] stands for the
    exception raised when [src] cannot be opened. *)
Definition copy2 (src dst : string) (f : FileSystem) : option FileSystem :=
  match files f !! src with
  | Some content => Some (write_file dst content f)
  | None => None
  end.

(** [(work_dir / "checkpoints" / name).mkdir(parents=True, exist_ok=True)],
    where no regular file is in the way (see [plain_layout]). *)
Definition mkdir_checkpoint (d : string) (f : FileSystem) : FileSystem :=
  {| files := files f; dirs := {[ "checkpoints" ]} ∪ ({[ d ]} ∪ dirs f) |}.

(** ** Exceptions, outcomes and the state of a workflow *)

Inductive exn :=
  | SimulationError (msg : string)
  | AttributeError (msg : string).

(** [str(e)]. *)
Definition str_exn (e : exn) : string :=
  match e with
  | SimulationError msg => msg
  | AttributeError msg => msg
  end.

Inductive outcome (A : Type) :=
  | Ret (a : A)
  | Raise (e : exn)
  | Hang.
Arguments Ret {A} a.
Arguments Raise {A} e.
Arguments Hang {A}.

(** What the operating system answers to
    [asyncio.create_subprocess_exec] followed by [communicate]. *)
Inductive spawn_result :=
  | Exited (out err : string) (rc : Z)
  | SpawnError (msg : string).

(** One entry into [run_gromacs_command]: the arguments it was given. *)
Record GatewayCall := mkCall {
  call_ctx : option Context;
  call_cmd : string;
  call_args : list string;
  call_input : option string
}.

Record State := mkState {
  fs : FileSystem;
  status : SimulationStatus;
  ctx_log : list LogEntry;
  gateway_calls : list GatewayCall
}.

Definition M (A : Type) : Type := State → outcome A * State.

Definition ret {A} (a : A) : M A := fun st => (Ret a, st).
Definition raise {A} (e : exn) : M A := fun st => (Raise e, st).
Definition hang {A} : M A := fun st => (Hang, st).

Definition bind {A B} (m : M A) (k : A → M B) : M B :=
  fun st =>
    match m st with
    | (Ret a, st') => k a st'
    | (Raise e, st') => (Raise e, st')
    | (Hang, st') => (Hang, st')
    end.

(** [try: body  except Exception as e: handler(e)]. *)
Definition try_except {A} (body : M A) (handler : exn → M A) : M A :=
  fun st =>
    match body st with
    | (Raise e, st') => handler e st'
    | r => r
    end.

Definition modify (g : State → State) : M unit := fun st => (Ret tt, g st).

Declare Scope wf_scope.
Delimit Scope wf_scope with wf.
Notation "'let!' x ':=' m 'in' k" := (bind m (fun x => k))
  (at level 10, x name, m at level 100, k at level 200) : wf_scope.
Notation "m '>>' k" := (bind m (fun _ => k))
  (at level 90, right associativity) : wf_scope.
Open Scope wf_scope.

Definition set_fs (g : FileSystem → FileSystem) (st : State) : State :=
  {| fs := g (fs st); status := status st; ctx_log := ctx_log st;
     gateway_calls := gateway_calls st |}.

Definition set_status (g : SimulationStatus → SimulationStatus) (st : State)
  : State :=
  {| fs := fs st; status := g (status st); ctx_log := ctx_log st;
     gateway_calls := gateway_calls st |}.

Definition initial_state (f : FileSystem) : State :=
  {| fs := f; status := new_status; ctx_log := []; gateway_calls := [] |}.

(** ** Text helpers used by the monitor *)

Definition LF : ascii := "010"%char.
Definition CR : ascii := "013"%char.

(** Text-mode [open(..., 'r')] translates ["\r\n"] and ["\r"] to
    ["\n"] (universal newlines). *)
Fixpoint universal_newlines (s : string) : string :=
  match s with
  | EmptyString => EmptyString
  | String c rest =>
      if decide (c = CR) then
        match rest with
        | String c' rest' =>
            if decide (c' = LF)
            then String LF (universal_newlines rest')
            else String LF (universal_newlines rest)
        | EmptyString => String LF EmptyString
        end
      else String c (universal_newlines rest)
  end.

(** Cut a text after each line feed, keeping the line feeds. *)
Fixpoint split_lines (s : string) : list string :=
  match s with
  | EmptyString => []
  | String c rest =>
      if decide (c = LF) then String LF EmptyString :: split_lines rest
      else match split_lines rest with
           | [] => [String c EmptyString]
           | l :: ls => String c l :: ls
           end
  end.

(** [f.readlines()] on a file opened in text mode. *)
Definition readlines (content : string) : list string :=
  split_lines (universal_newlines content).

(** [needle in hay] on [str]. *)
Fixpoint contains (needle hay : string) : bool :=
  String.prefix needle hay ||
  match hay with
  | EmptyString => false
  | String _ rest => contains needle rest
  end.

(** ** The environment of a workflow

    Everything the source leaves to the outside world:
    - [spawn full_cmd input cwd f]: what running the external program on
      the store [f] answers and the store it leaves behind;
    - [sleep seconds f]: the store after the coroutine slept;
    - [step_str step]: the text an f-string gives for [{step}] (the member's
      value or its qualified name, depending on the Python version);
    - [abs_path name]: [str(self.work_dir / name)];
    - the four [*_mdp_text]: the stripped text the [_create_*_mdp] methods
      render from [self.params]. *)
Record Env := mkEnv {
  spawn : list string → option string → string → FileSystem
          → spawn_result * FileSystem;
  sleep : nat → FileSystem → FileSystem;
  step_str : SimulationStep → string;
  abs_path : string → string;
  em_mdp_text : string;
  nvt_mdp_text : string;
  npt_mdp_text : string;
  md_mdp_text : string
}.

Section Workflow.

Variable E : Env.

(** *** gromacs.py: [run_gromacs_command]

    [ctx.gmx_path] is read before the [try] block, so a [ctx] that is
    [None] raises [AttributeError] to the caller; everything from the
    spawn on is inside the [try], whose handler returns the sentinel
    result. *)
Definition record_call (c : GatewayCall) (st : State) : State :=
  {| fs := fs st; status := status st; ctx_log := ctx_log st;
     gateway_calls := gateway_calls st ++ [c] |}.

Definition run_gromacs_command (ctx : option Context) (cmd : string)
    (args : list string) (input_data : option string) : M GromacsCmdResult :=
  fun st =>
    let st := record_call (mkCall ctx cmd args input_data) st in
    match ctx with
    | None =>
        (Raise (AttributeError
                  "'NoneType' object has no attribute 'gmx_path'"), st)
    | Some c =>
        let words := full_cmd c cmd args in
        match spawn E words input_data (working_dir c) (fs st) with
        | (Exited out err rc, f') =>
            (Ret {| stdout := out; stderr := err; return_code := rc;
                    command := join_words words;
                    success := bool_decide (rc = 0) |},
             {| fs := f'; status := status st;
                ctx_log := ctx_log st ++
                  [{| log_command := join_words words;
                      log_return_code := rc;
                      log_stdout := out; log_stderr := err |}];
                gateway_calls := gateway_calls st |})
        | (SpawnError error_msg, f') =>
            (Ret {| stdout := ""; stderr := error_msg; return_code := -1;
                    command := join_words words; success := false |},
             set_fs (fun _ => f') st)
        end
    end.

(** *** simulation.py: [SimulationWorkflow] *)

(** [_check_output_files]: the first file that is missing or empty makes
    the answer [False]. *)
Fixpoint check_files (f : FileSystem) (required_files : list string) : bool :=
  match required_files with
  | [] => true
  | file :: rest =>
      match files f !! file with
      | None => false
      | Some content =>
          if decide (String.length content = 0%nat) then false
          else check_files f rest
      end
  end.

Definition _check_output_files (step : SimulationStep)
    (required_files : list string) : M bool :=
  fun st => (Ret (check_files (fs st) required_files), st).

(** [_validate_energy], with the context handed to the gateway as a
    parameter.  The source passes [None]: see [_validate_energy]. *)
Definition _validate_energy_with (vctx : option Context)
    (step : SimulationStep) (energy_file : string) : M bool :=
  try_except
    (let! cmd_result :=
       run_gromacs_command vctx "energy"
         ["-f"; energy_file; "-o"; value step +:+ "_energy.xvg"] None in
     if decide (return_code cmd_result ≠ 0) then ret false else ret true)
    (fun _ => ret false).

Definition _validate_energy : SimulationStep → string → M bool :=
  _validate_energy_with None.

(** One pass through the body of the [while True] loop of
    [_monitor_progress], as what it decides on a log that is a regular
    file and decodes as text. *)
Inductive poll :=
  | NoLogYet
  | Pending
  | Finished
  | Fatal (last_line : string).

Definition poll_log (f : FileSystem) (log_file : string) : poll :=
  match files f !! log_file with
  | None => NoLogYet
  | Some content =>
      match last (readlines content) with
      | Some last_line =>
          if contains "Finished mdrun" last_line then Finished
          else if contains "Fatal error" last_line then Fatal last_line
          else Pending
      | None => Pending
      end
  end.

(** [_monitor_progress]: the handler around the loop logs and re-raises,
    so it is the loop itself. *)
Fixpoint _monitor_progress (fuel : nat) (step : SimulationStep)
    (log_file : string) : M unit :=
  match fuel with
  | O => hang
  | S fuel' =>
      fun st =>
        match poll_log (fs st) log_file with
        | NoLogYet =>
            _monitor_progress fuel' step log_file (set_fs (sleep E 1) st)
        | Pending =>
            _monitor_progress fuel' step log_file (set_fs (sleep E 5) st)
        | Finished => (Ret tt, st)
        | Fatal _ =>
            (Raise (SimulationError (step_str E step +:+ " 模拟失败")), st)
        end
  end.

(** What the four [run_*] methods differ in. *)
Record Phase := mkPhase {
  ph_step : SimulationStep;
  ph_requires : option (SimulationStep * string);
  ph_mdp : string;
  ph_mdp_text : string;
  ph_grompp_args : list string;
  ph_deffnm : string;
  ph_log : string;
  ph_required_files : list string;
  ph_energy_file : string
}.

(** The result dictionary of a [run_*] method. *)
Record RunResult := mkRun {
  res_grompp : GromacsCmdResult;
  res_mdrun : GromacsCmdResult;
  res_status : string
}.

(** The check at the head of the [try] block of [run_nvt_equilibration],
    [run_npt_equilibration] and [run_production]. *)
Definition check_previous (ph : Phase) : M unit :=
  fun st =>
    match ph_requires ph with
    | Some (previous, msg) =>
        if decide (previous ∈ completed_steps (status st))
        then (Ret tt, st)
        else (Raise (SimulationError msg), st)
    | None => (Ret tt, st)
    end.

Definition set_current_step (step : SimulationStep) (s : SimulationStatus)
  : SimulationStatus :=
  {| current_step := Some step; completed_steps := completed_steps s;
     errors := errors s; start_time := start_time s;
     end_time := end_time s |}.

Definition append_completed (step : SimulationStep) (s : SimulationStatus)
  : SimulationStatus :=
  {| current_step := current_step s;
     completed_steps := completed_steps s ++ [step];
     errors := errors s; start_time := start_time s;
     end_time := end_time s |}.

Definition set_error (step : SimulationStep) (msg : string)
    (s : SimulationStatus) : SimulationStatus :=
  {| current_step := current_step s; completed_steps := completed_steps s;
     errors := <[step := msg]> (errors s); start_time := start_time s;
     end_time := end_time s |}.

(** The [try] block of a [run_*] method up to the launch of [mdrun]:
    the check of the previous step, the [.mdp] file, [grompp] and its
    return code, [mdrun] (whose return code is not looked at). *)
Definition launch (ph : Phase) (ctx : Context)
  : M (GromacsCmdResult * GromacsCmdResult) :=
  check_previous ph >>
  modify (set_fs (write_file (ph_mdp ph) (ph_mdp_text ph))) >>
  let! grompp_result :=
    run_gromacs_command (Some ctx) "grompp" (ph_grompp_args ph) None in
  (if decide (return_code grompp_result ≠ 0)
   then raise (SimulationError
                 ("生成TPR文件失败: " +:+ stderr grompp_result))
   else ret tt) >>
  let! mdrun_result :=
    run_gromacs_command (Some ctx) "mdrun" ["-v"; "-deffnm"; ph_deffnm ph]
      None in
  ret (grompp_result, mdrun_result).

(** The end of the [try] block, after the monitor: the two validations,
    the append to [completed_steps] and the result. *)
Definition validate_and_commit (vctx : option Context) (ph : Phase)
    (grompp_result mdrun_result : GromacsCmdResult) : M RunResult :=
  let! files_ok := _check_output_files (ph_step ph) (ph_required_files ph) in
  (if files_ok then ret tt
   else raise (SimulationError
                 (step_str E (ph_step ph) +:+ " 输出文件验证失败"))) >>
  let! energy_ok :=
    _validate_energy_with vctx (ph_step ph) (ph_energy_file ph) in
  (if energy_ok then ret tt
   else raise (SimulationError
                 (step_str E (ph_step ph) +:+ " 能量验证失败"))) >>
  modify (set_status (append_completed (ph_step ph))) >>
  ret {| res_grompp := grompp_result; res_mdrun := mdrun_result;
         res_status := "success" |}.

(** The whole [try] block. *)
Definition phase_body (vctx : option Context) (fuel : nat) (ph : Phase)
    (ctx : Context) : M RunResult :=
  let! launched := launch ph ctx in
  _monitor_progress fuel (ph_step ph) (ph_log ph) >>
  validate_and_commit vctx ph launched.1 launched.2.

(** A whole [run_*] method: set [current_step], run the [try] block, and
    on any exception record [str(e)] against the step and re-raise. *)
Definition run_phase (vctx : option Context) (fuel : nat) (ph : Phase)
    (ctx : Context) : M RunResult :=
  modify (set_status (set_current_step (ph_step ph))) >>
  try_except (phase_body vctx fuel ph ctx)
    (fun e =>
       modify (set_status (set_error (ph_step ph) (str_exn e))) >>
       raise e).

Definition minimization_phase : Phase :=
  {| ph_step := MINIMIZATION;
     ph_requires := None;
     ph_mdp := "em.mdp";
     ph_mdp_text := em_mdp_text E;
     ph_grompp_args :=
       ["-f"; abs_path E "em.mdp"; "-c"; "solvated.gro"; "-p"; "topol.top";
        "-o"; "em.tpr"];
     ph_deffnm := "em";
     ph_log := "em.log";
     ph_required_files := ["em.gro"; "em.edr"; "em.log"];
     ph_energy_file := "em.edr" |}.

Definition nvt_phase : Phase :=
  {| ph_step := NVT_EQUILIBRATION;
     ph_requires := Some (MINIMIZATION, "必须先完成能量最小化");
     ph_mdp := "nvt.mdp";
     ph_mdp_text := nvt_mdp_text E;
     ph_grompp_args :=
       ["-f"; abs_path E "nvt.mdp"; "-c"; "em.gro"; "-r"; "em.gro";
        "-p"; "topol.top"; "-o"; "nvt.tpr"];
     ph_deffnm := "nvt";
     ph_log := "nvt.log";
     ph_required_files := ["nvt.gro"; "nvt.edr"; "nvt.log"; "nvt.cpt"];
     ph_energy_file := "nvt.edr" |}.

Definition npt_phase : Phase :=
  {| ph_step := NPT_EQUILIBRATION;
     ph_requires := Some (NVT_EQUILIBRATION, "必须先完成NVT平衡");
     ph_mdp := "npt.mdp";
     ph_mdp_text := npt_mdp_text E;
     ph_grompp_args :=
       ["-f"; abs_path E "npt.mdp"; "-c"; "nvt.gro"; "-r"; "nvt.gro";
        "-t"; "nvt.cpt"; "-p"; "topol.top"; "-o"; "npt.tpr"];
     ph_deffnm := "npt";
     ph_log := "npt.log";
     ph_required_files := ["npt.gro"; "npt.edr"; "npt.log"; "npt.cpt"];
     ph_energy_file := "npt.edr" |}.

Definition production_phase : Phase :=
  {| ph_step := PRODUCTION;
     ph_requires := Some (NPT_EQUILIBRATION, "必须先完成NPT平衡");
     ph_mdp := "md.mdp";
     ph_mdp_text := md_mdp_text E;
     ph_grompp_args :=
       ["-f"; abs_path E "md.mdp"; "-c"; "npt.gro"; "-t"; "npt.cpt";
        "-p"; "topol.top"; "-o"; "md.tpr"];
     ph_deffnm := "md";
     ph_log := "md.log";
     ph_required_files :=
       ["md.gro"; "md.edr"; "md.log"; "md.xtc"; "md.cpt"];
     ph_energy_file := "md.edr" |}.

(** The four methods as the source has them: energy validation hands
    [None] to the gateway. *)
Definition run_minimization (fuel : nat) : Context → M RunResult :=
  run_phase None fuel minimization_phase.
Definition run_nvt_equilibration (fuel : nat) : Context → M RunResult :=
  run_phase None fuel nvt_phase.
Definition run_npt_equilibration (fuel : nat) : Context → M RunResult :=
  run_phase None fuel npt_phase.
Definition run_production (fuel : nat) : Context → M RunResult :=
  run_phase None fuel production_phase.

(** [get_simulation_status]. *)
Definition get_simulation_status : M SimulationStatus :=
  fun st => (Ret (status st), st).

(** *** The checkpoint store *)

(** The dictionary [files_to_backup] / [files_to_restore], read with
    [.get(step, [])]. *)
Definition checkpoint_files (step : SimulationStep) : list string :=
  match step with
  | MINIMIZATION => ["em.gro"; "em.edr"; "em.log"]
  | NVT_EQUILIBRATION => ["nvt.gro"; "nvt.edr"; "nvt.log"; "nvt.cpt"]
  | NPT_EQUILIBRATION => ["npt.gro"; "npt.edr"; "npt.log"; "npt.cpt"]
  | PRODUCTION => ["md.gro"; "md.edr"; "md.log"; "md.xtc"; "md.cpt"]
  | _ => []
  end.

(** [self.work_dir / "checkpoints" / step.value]. *)
Definition checkpoint_dir (step : SimulationStep) : string :=
  "checkpoints/" +:+ value step.

(** [checkpoint_dir / file]. *)
Definition checkpoint_path (step : SimulationStep) (file : string) : string :=
  checkpoint_dir step +:+ "/" +:+ file.

(** The [for] loop of [backup_checkpoint]: a file that is not there is
    skipped; [None] is an exception out of [shutil.copy2]. *)
Fixpoint backup_files (step : SimulationStep) (l : list string)
    (f : FileSystem) : option FileSystem :=
  match l with
  | [] => Some f
  | file :: rest =>
      if file_exists f file then
        match copy2 file (checkpoint_path step file) f with
        | Some f' => backup_files step rest f'
        | None => None
        end
      else backup_files step rest f
  end.

(** [backup_checkpoint]: [Some f'] when it returns, [None] when it
    re-raises. *)
Definition backup_checkpoint (step : SimulationStep) (f : FileSystem)
  : option FileSystem :=
  backup_files step (checkpoint_files step)
    (mkdir_checkpoint (checkpoint_dir step) f).

(** The [for] loop of [restore_checkpoint]: the first file missing from
    the checkpoint ends the loop with [False], after the files before it
    were copied. *)
Fixpoint restore_files (step : SimulationStep) (l : list string)
    (f : FileSystem) : bool * FileSystem :=
  match l with
  | [] => (true, f)
  | file :: rest =>
      if file_exists f (checkpoint_path step file) then
        match copy2 (checkpoint_path step file) file f with
        | Some f' => restore_files step rest f'
        | None => (false, f)
        end
      else (false, f)
  end.

Definition restore_checkpoint (step : SimulationStep) (f : FileSystem)
  : bool * FileSystem :=
  if dir_exists f (checkpoint_dir step)
  then restore_files step (checkpoint_files step) f
  else (false, f).

End Workflow.

(** ** Test doubles for the engine

    A stand-in engine in the way a test of the workflow would write one:
    [gmx grompp] and [gmx energy] exit with 0 and write nothing,
    [gmx mdrun -v -deffnm name] writes [name ++ suffix] for each of the
    given suffixes (the log with the given text) and exits with 0;
    any other command line cannot be spawned. *)
Definition stub_outputs (name : string) (suffixes : list string)
    (log_text : string) (f : FileSystem) : FileSystem :=
  foldr (fun suffix acc =>
           write_file (name +:+ suffix)
             (if decide (suffix = ".log") then log_text else "data") acc)
        f suffixes.

Definition stub_spawn (suffixes : list string) (log_text : string)
    (words : list string) (input : option string) (cwd : string)
    (f : FileSystem) : spawn_result * FileSystem :=
  match words with
  | prog :: sub :: rest =>
      if decide (prog = "gmx") then
        if decide (sub = "mdrun") then
          match rest with
          | [_; _; name] =>
              (Exited "" "" 0, stub_outputs name suffixes log_text f)
          | _ => (Exited "" "usage" 1, f)
          end
        else if decide (sub = "grompp") then (Exited "" "" 0, f)
        else if decide (sub = "energy") then (Exited "" "" 0, f)
        else (Exited "" "unknown command" 1, f)
      else (SpawnError "[Errno 2] No such file or directory", f)
  | _ => (SpawnError "[Errno 2] No such file or directory", f)
  end.

Definition stub_env (suffixes : list string) (log_text : string) : Env :=
  {| spawn := stub_spawn suffixes log_text;
     sleep := fun _ f => f;
     step_str := value;
     abs_path := fun name => "/work/" +:+ name;
     em_mdp_text := "integrator = steep";
     nvt_mdp_text := "integrator = md";
     npt_mdp_text := "integrator = md";
     md_mdp_text := "integrator = md" |}.

(** An engine that writes every output and ends its log with the
    completion marker. *)
Definition good_env : Env :=
  stub_env [".gro"; ".edr"; ".log"; ".cpt"; ".xtc"]
    ("step 0" +:+ String LF ("Finished mdrun on rank 0" +:+ String LF "")).

(** A machine without the binary: nothing can be spawned. *)
Definition no_binary_env : Env :=
  {| spawn := fun _ _ _ f =>
       (SpawnError "[Errno 2] No such file or directory: 'gmx'", f);
     sleep := fun _ f => f;
     step_str := value;
     abs_path := fun name => "/work/" +:+ name;
     em_mdp_text := "integrator = steep";
     nvt_mdp_text := "integrator = md";
     npt_mdp_text := "integrator = md";
     md_mdp_text := "integrator = md" |}.

Definition default_ctx : Context := new_Context "/work" None None.

Definition empty_fs : FileSystem := {| files := ∅; dirs := ∅ |}.

(** ** Notions used to state the properties *)

(** [polls_until E log f n f']: started on the store [f], the monitor
    goes through [n] polls that decide nothing (sleeping 1 second while
    the log is missing, 5 seconds otherwise) and makes its next poll on
    the store [f']. *)
Inductive polls_until (E : Env) (log_file : string)
  : FileSystem → nat → FileSystem → Prop :=
  | polls_here f : polls_until E log_file f 0 f
  | polls_no_log f n f' :
      poll_log f log_file = NoLogYet →
      polls_until E log_file (sleep E 1 f) n f' →
      polls_until E log_file f (S n) f'
  | polls_pending f n f' :
      poll_log f log_file = Pending →
      polls_until E log_file (sleep E 5 f) n f' →
      polls_until E log_file f (S n) f'.

(** The files of [l], in order, up to the first one that the checkpoint
    of [step] does not hold. *)
Fixpoint present_prefix (step : SimulationStep) (l : list string)
    (f : FileSystem) : list string :=
  match l with
  | [] => []
  | file :: rest =>
      if file_exists f (checkpoint_path step file)
      then file :: present_prefix step rest f
      else []
  end.

(** The state a [run_*] method leaves when its [try] block raised [e]
    from the state [st]. *)
Definition failed_with (step : SimulationStep) (e : exn) (st : State)
  : State :=
  set_status (set_error step (str_exn e)) st.

(** *** Concrete stores and engines used in the examples *)

(** A working directory holding the three outputs of the minimization. *)
Definition minimized_fs : FileSystem :=
  {| files := <["em.gro" := "coordinates"]>
              (<["em.edr" := "energies"]>
              (<["em.log" := "Finished mdrun"]> ∅));
     dirs := ∅ |}.

(** A checkpoint of the minimization that lost [em.edr] and [em.log],
    next to a working directory with a newer [em.gro]. *)
Definition partial_checkpoint_fs : FileSystem :=
  {| files := <["checkpoints/minimization/em.gro" := "checkpointed"]>
              (<["em.gro" := "current"]> ∅);
     dirs := {[ "checkpoints"; "checkpoints/minimization" ]} |}.

(** A store whose only content is the checkpoint directory of [step]. *)
Definition bare_checkpoint_fs (step : SimulationStep) : FileSystem :=
  {| files := ∅; dirs := {[ "checkpoints"; checkpoint_dir step ]} |}.

(** The names in [l] are not themselves paths into the checkpoint of
    [step]. *)
Definition names_fresh (step : SimulationStep) (l : list string) : Prop :=
  ∀ g h, g ∈ l → checkpoint_path step h ≠ g.

(** [keeps obs m]: whatever [m] does and however it ends, the observation
    [obs] of the state is afterwards what it was before. *)
Definition keeps {X A : Type} (obs : State → X) (m : M A) : Prop :=
  ∀ st o st', m st = (o, st') → obs st' = obs st.

(** [env_blind E obs]: the observation [obs] sees neither the record the
    gateway keeps of its calls, nor what a spawned process does to the
    store and to [ctx.log], nor what happens during a sleep. *)
Definition env_blind (E : Env) {X : Type} (obs : State → X) : Prop :=
  (∀ st c, obs (record_call c st) = obs st) ∧
  (∀ st words input cwd log,
     obs {| fs := (spawn E words input cwd (fs st)).2; status := status st;
            ctx_log := log; gateway_calls := gateway_calls st |} = obs st) ∧
  (∀ st n, obs (set_fs (sleep E n) st) = obs st).

(** [status_blind obs]: the observation does not look at the status. *)
Definition status_blind {X : Type} (obs : State → X) : Prop :=
  ∀ st g, obs (set_status g st) = obs st.

(** The status invariant of the specification for one step: the step is
    in [errors] or in [completed_steps], and not in both. *)
Definition recorded_once (s : SimulationStatus) (step : SimulationStep)
  : Prop :=
  (step ∈ completed_steps s ∧ errors s !! step = None) ∨
  ((step ∉ completed_steps s) ∧ is_Some (errors s !! step)).

(** What an attempt that is turned away by the check of the previous step
    looks like from the state [st] it started in. *)
Definition turned_away (r : outcome RunResult * State) (st : State)
    (step : SimulationStep) (msg : string) : Prop :=
  r.1 = Raise (SimulationError msg) ∧
  errors (status r.2) !! step = Some msg ∧
  completed_steps (status r.2) = completed_steps (status st) ∧
  gateway_calls r.2 = gateway_calls st ∧
  ctx_log r.2 = ctx_log st ∧
  fs r.2 = fs st.

(** An engine whose log ends with a fatal error. *)
Definition fatal_env : Env :=
  stub_env [".gro"; ".edr"; ".log"; ".cpt"; ".xtc"]
    ("step 0" +:+ String LF ("Fatal error: system blew up" +:+ String LF "")).

(** A log whose last line carries both markers. *)
Definition both_markers_log : string :=
  "Fatal error: could not reach Finished mdrun" +:+ String LF "".

(** An engine that writes that log. *)
Definition both_markers_env : Env :=
  stub_env [".gro"; ".edr"; ".log"; ".cpt"; ".xtc"] both_markers_log.

(** An engine that exits with 0 and completes its log but leaves no
    energy file. *)
Definition no_edr_env : Env :=
  stub_env [".gro"; ".log"; ".cpt"; ".xtc"]
    ("step 0" +:+ String LF ("Finished mdrun on rank 0" +:+ String LF "")).

(** An engine that exits with 0 and writes every output but the log. *)
Definition no_log_env : Env :=
  stub_env [".gro"; ".edr"; ".cpt"; ".xtc"] "".

(** *** Notions for the further properties *)

(** The three calls a run of a phase can make to the gateway. *)
Definition phase_calls (vctx : option Context) (ph : Phase) (ctx : Context)
  : list GatewayCall :=
  [ mkCall (Some ctx) "grompp" (ph_grompp_args ph) None;
    mkCall (Some ctx) "mdrun" ["-v"; "-deffnm"; ph_deffnm ph] None;
    mkCall vctx "energy"
      ["-f"; ph_energy_file ph; "-o"; value (ph_step ph) +:+ "_energy.xvg"]
      None ].

(** A call the minimization makes, whatever the context it was given. *)
Definition minimization_call (E : Env) (c : GatewayCall) : Prop :=
  ∃ ctx, c ∈ phase_calls None (minimization_phase E) ctx.

(** The states a workflow can be in: it starts with a fresh status on
    some store, each of its four methods may be called with any context
    (and left to run for any number of polls), and between the calls
    anything may happen to the store. *)
Inductive reachable (E : Env) : State → Prop :=
  | reach_fresh f : reachable E (initial_state f)
  | reach_minimization st fuel ctx :
      reachable E st → reachable E (run_minimization E fuel ctx st).2
  | reach_nvt st fuel ctx :
      reachable E st → reachable E (run_nvt_equilibration E fuel ctx st).2
  | reach_npt st fuel ctx :
      reachable E st → reachable E (run_npt_equilibration E fuel ctx st).2
  | reach_production st fuel ctx :
      reachable E st → reachable E (run_production E fuel ctx st).2
  | reach_outside st g : reachable E st → reachable E (set_fs g st).

(** A method that never returns and never appends to
    [completed_steps]. *)
Definition never_commits (run : Context → M RunResult) : Prop :=
  ∀ ctx st,
    (∀ result, (run ctx st).1 ≠ Ret result) ∧
    completed_steps (status (run ctx st).2) = completed_steps (status st).

(** A GROMACS log as [mdrun] leaves it after a fatal error: the error
    text is followed by a closing rule, so the last line carries no
    marker. *)
Definition crashed_log : string :=
  "Fatal error:" +:+ String LF
  ("Too many LINCS warnings" +:+ String LF
  ("-------------------------------------------------------" +:+
   String LF "")).

(** An engine that exits with 1 on [grompp]. *)
Definition grompp_fails_env : Env :=
  {| spawn := fun words _ _ f => (Exited "" "Fatal error: no such file" 1, f);
     sleep := fun _ f => f;
     step_str := value;
     abs_path := fun name => "/work/" +:+ name;
     em_mdp_text := "integrator = steep";
     nvt_mdp_text := "integrator = md";
     npt_mdp_text := "integrator = md";
     md_mdp_text := "integrator = md" |}.

(** An engine on which [grompp] works and [mdrun] cannot be spawned. *)
Definition no_mdrun_env : Env :=
  {| spawn := fun words _ _ f =>
       if decide (words !! 1%nat = Some "grompp")
       then (Exited "" "" 0, f)
       else (SpawnError "[Errno 8] Exec format error", f);
     sleep := fun _ f => f;
     step_str := value;
     abs_path := fun name => "/work/" +:+ name;
     em_mdp_text := "integrator = steep";
     nvt_mdp_text := "integrator = md";
     npt_mdp_text := "integrator = md";
     md_mdp_text := "integrator = md" |}.

(** A store with outputs of the minimization in the working directory
    and an older checkpoint that still holds a log. *)
Definition stale_checkpoint_fs : FileSystem :=
  {| files := <["em.gro" := "new coordinates"]>
              (<["checkpoints/minimization/em.gro" := "old coordinates"]>
              (<["checkpoints/minimization/em.log" := "old log"]> ∅));
     dirs := {[ "checkpoints"; "checkpoints/minimization" ]} |}.


(** *** Notions for the checkpoint round trip *)

(** The layout [backup_checkpoint] and [restore_checkpoint] count on for
    [step]: no regular file sits where the two checkpoint directories go,
    and none of the paths they copy from or to is a directory.  (On any
    other layout [mkdir] raises, or [shutil.copy2] raises or copies into
    the directory.) *)
Definition plain_layout (step : SimulationStep) (f : FileSystem) : bool :=
  bool_decide (files f !! "checkpoints" = None) &&
  bool_decide (files f !! checkpoint_dir step = None) &&
  forallb (fun g => bool_decide (g ∉ dirs f) &&
                    bool_decide (checkpoint_path step g ∉ dirs f))
          (checkpoint_files step).

(** The store [backup_checkpoint MINIMIZATION] leaves on [minimized_fs],
    after the working directory was damaged: [em.gro] overwritten,
    [em.edr] deleted, [em.log] emptied. *)
Definition damaged_outputs_fs : FileSystem :=
  {| files := <["em.gro" := "garbage"]>
              (<["em.log" := ""]>
              (<["checkpoints/minimization/em.gro" := "coordinates"]>
              (<["checkpoints/minimization/em.edr" := "energies"]>
              (<["checkpoints/minimization/em.log" := "Finished mdrun"]> ∅))));
     dirs := {[ "checkpoints"; "checkpoints/minimization" ]} |}.

(** *** Notions for the status invariant *)

(** Whether a call has ended: it returned or it raised. *)
Definition ended {A : Type} (o : outcome A) : bool :=
  match o with
  | Hang => false
  | _ => true
  end.

(** The steps whose attempts have ended, most recent first, after one
    more call of the method for [step] came out as [o]. *)
Definition note_attempt {A : Type} (step : SimulationStep) (o : outcome A)
    (l : list SimulationStep) : list SimulationStep :=
  if ended o then step :: l else l.

(** [attempted st l]: the workflow can be in the state [st] (it started
    with a fresh status, its four methods were called with any contexts,
    on whatever the environment was at the time, and anything happened
    to the store between the calls, [backup_checkpoint] and
    [restore_checkpoint] included, which touch nothing else), and [l]
    lists the steps of the attempts that have ended on the way there. *)
Inductive attempted : State → list SimulationStep → Prop :=
  | att_fresh f : attempted (initial_state f) []
  | att_minimization E st l fuel ctx :
      attempted st l →
      attempted (run_minimization E fuel ctx st).2
        (note_attempt MINIMIZATION (run_minimization E fuel ctx st).1 l)
  | att_nvt E st l fuel ctx :
      attempted st l →
      attempted (run_nvt_equilibration E fuel ctx st).2
        (note_attempt NVT_EQUILIBRATION
           (run_nvt_equilibration E fuel ctx st).1 l)
  | att_npt E st l fuel ctx :
      attempted st l →
      attempted (run_npt_equilibration E fuel ctx st).2
        (note_attempt NPT_EQUILIBRATION
           (run_npt_equilibration E fuel ctx st).1 l)
  | att_production E st l fuel ctx :
      attempted st l →
      attempted (run_production E fuel ctx st).2
        (note_attempt PRODUCTION (run_production E fuel ctx st).1 l)
  | att_outside st l g : attempted st l → attempted (set_fs g st) l.

(** *** Notions for what an attempt writes *)

(** The command lines a run of a phase hands to the operating system:
    [grompp], [mdrun] and, when energy validation is given a context,
    [energy]. *)
Definition phase_command_lines (vctx : option Context) (ph : Phase)
    (ctx : Context) : list (list string) :=
  full_cmd ctx "grompp" (ph_grompp_args ph) ::
  full_cmd ctx "mdrun" ["-v"; "-deffnm"; ph_deffnm ph] ::
  match vctx with
  | Some c =>
      [full_cmd c "energy"
         ["-f"; ph_energy_file ph; "-o";
          value (ph_step ph) +:+ "_energy.xvg"]]
  | None => []
  end.

(** Run on any of the command [lines], the engine leaves the set of
    directories alone, and so does a sleep. *)
Definition run_keeps_dirs (E : Env) (lines : list (list string)) : Prop :=
  (∀ words input cwd f,
     words ∈ lines → dirs (spawn E words input cwd f).2 = dirs f) ∧
  (∀ n f, dirs (sleep E n f) = dirs f).

(** Run on any of the command [lines], the engine leaves the regular
    file at [p] alone, and so does a sleep. *)
Definition run_keeps_file (E : Env) (lines : list (list string))
    (p : string) : Prop :=
  (∀ words input cwd f,
     words ∈ lines →
     files (spawn E words input cwd f).2 !! p = files f !! p) ∧
  (∀ n f, files (sleep E n f) !! p = files f !! p).

(** The files of the logging handlers ([logs/simulation_<time>.log]),
    to which every [logger] call of the workflow appends a line, are not
    part of the modelled store; [outside_logs p] says that [p] is not one
    of them. *)
Definition outside_logs (p : string) : bool :=
  negb (String.prefix "logs/" p).

(** A text of 7-bit characters only; such a file decodes under every
    locale encoding [open(..., 'r')] may pick. *)
Fixpoint ascii_text (s : string) : bool :=
  match s with
  | EmptyString => true
  | String c rest => (nat_of_ascii c <? 128)%nat && ascii_text rest
  end.

(** [calls_within P m]: the calls [m] adds to the record of the gateway
    all satisfy [P]. *)
Definition calls_within {A : Type} (P : GatewayCall → Prop) (m : M A)
  : Prop :=
  ∀ st o st', m st = (o, st') →
    ∃ l, gateway_calls st' = (gateway_calls st ++ l)%list ∧ Forall P l.


(** ** workflow_manager.py: the metadata registry

    One JSON file per workflow, [<metadata_dir>/<workflow_id>.json], and
    one directory per workflow, [<workspace_root>/<workflow_id>].  A
    metadata file is held as the dictionary [to_dict] writes (JSON and
    pydantic store and reload these dictionaries without loss); a file
    that cannot be read back into one is [None].  The readings of
    [datetime.now().isoformat()] and [uuid.uuid4()] are arguments.
    [CompleteSimulationParams] is carried around as it is. *)
Module Registry.

Section WithParams.

Context {Params : Type}.

Record WorkflowMetadata := mkMetadata {
  workflow_id : string;
  name : string;
  description : option string;
  created_at : string;
  updated_at : string;
  status : SimulationStatus;
  params : option Params
}.

(** [x or default] on an optional string. *)
Definition or_else (x : option string) (default : string) : string :=
  match x with
  | Some s => if decide (s = "") then default else s
  | None => default
  end.

(** [if x:] on an optional string. *)
Definition truthy (x : option string) : bool :=
  match x with
  | Some s => if decide (s = "") then false else true
  | None => false
  end.

(** [WorkflowMetadata.__init__]. *)
Definition new_metadata (now : string) (id nm : string)
    (desc created updated : option string) (st : option SimulationStatus)
    (ps : option Params) : WorkflowMetadata :=
  {| workflow_id := id;
     name := nm;
     description := desc;
     created_at := or_else created now;
     updated_at := or_else updated (or_else created now);
     status := match st with Some s => s | None => new_status end;
     params := ps |}.

(** The dictionary of [to_dict], as [from_dict] reads it: the two keys it
    indexes and the five it asks for with [.get]. *)
Record MetadataDict := mkDict {
  d_workflow_id : string;
  d_name : string;
  d_description : option string;
  d_created_at : option string;
  d_updated_at : option string;
  d_status : option SimulationStatus;
  d_params : option Params
}.

Definition to_dict (m : WorkflowMetadata) : MetadataDict :=
  {| d_workflow_id := workflow_id m;
     d_name := name m;
     d_description := description m;
     d_created_at := Some (created_at m);
     d_updated_at := Some (updated_at m);
     d_status := Some (status m);
     d_params := params m |}.

Definition from_dict (now : string) (d : MetadataDict) : WorkflowMetadata :=
  new_metadata now (d_workflow_id d) (d_name d) (d_description d)
    (d_created_at d) (d_updated_at d) (d_status d) (d_params d).

Record Store := mkStore {
  documents : gmap string (option MetadataDict);
  directories : gset string
}.

(** [_save_metadata]: the file is named after the identifier the
    metadata carries. *)
Definition _save_metadata (m : WorkflowMetadata) (r : Store) : Store :=
  {| documents := <[workflow_id m := Some (to_dict m)]> (documents r);
     directories := directories r |}.

(** [create_workflow], with the new identifier [id]. *)
Definition create_workflow (now id : string) (nm : string)
    (desc : option string) (ps : option Params) (r : Store)
  : string * Store :=
  let metadata := new_metadata now id nm desc None None None ps in
  (id, _save_metadata metadata
         {| documents := documents r;
            directories := {[ id ]} ∪ directories r |}).

(** [get_workflow]: no file, or a file that cannot be read, is [None]. *)
Definition get_workflow (now : string) (id : string) (r : Store)
  : option WorkflowMetadata :=
  match documents r !! id with
  | Some (Some d) => Some (from_dict now d)
  | _ => None
  end.

(** [list_workflows]: the readable files, in the order the directory
    gives them. *)
Definition list_workflows (now : string) (r : Store)
  : list WorkflowMetadata :=
  omap (fun entry => from_dict now <$> entry.2) (map_to_list (documents r)).

(** [update_workflow]; [now] is the clock when the file is loaded, [now']
    when [updated_at] is set. *)
Definition update_workflow (now now' : string) (id : string)
    (nm desc : option string) (st : option SimulationStatus)
    (ps : option Params) (r : Store) : bool * Store :=
  match get_workflow now id r with
  | None => (false, r)
  | Some metadata =>
      let metadata' :=
        {| workflow_id := workflow_id metadata;
           name := if truthy nm then or_else nm "" else name metadata;
           description :=
             if truthy desc then desc else description metadata;
           created_at := created_at metadata;
           updated_at := now';
           status := match st with Some s => s | None => status metadata end;
           params := match ps with Some p => Some p | None => params metadata end
        |} in
      (true, _save_metadata metadata' r)
  end.

(** [delete_workflow], for an identifier that names one file and one
    directory (see [plain_id]) and when neither removal fails. *)
Definition delete_workflow (id : string) (r : Store) : bool * Store :=
  (true, {| documents := delete id (documents r);
            directories := directories r ∖ {[ id ]} |}).

(** [get_workflow_directory]: the identifier stands for the path
    [workspace_root / workflow_id]. *)
Definition get_workflow_directory (id : string) (r : Store) : option string :=
  if decide (id ∈ directories r) then Some id else None.


(** Every readable file carries the identifier it is named after. *)
Definition consistent (r : Store) : Prop :=
  ∀ id d, documents r !! id = Some (Some d) → d_workflow_id d = id.

(** *** service.py: the registry as [MCPService] offers it

    [structure_exists p] is what [Path(p.structure_file).exists()]
    answers; the warnings [validate_complete_params] computes are only
    logged.  [other_files] are the JSON files outside the registry that
    [export_workflow] writes and [import_workflow] reads. *)
Record World := mkWorld {
  registry : Store;
  other_files : gmap string (option MetadataDict)
}.

Context (structure_exists : Params → bool).

(** [MCPService.create_workflow]: [None] is the [ValidationError] that
    [validate_complete_params] raises. *)
Definition service_create_workflow (now id : string) (nm : string)
    (desc : option string) (ps : option Params) (r : Store)
  : option (string * Store) :=
  match ps with
  | Some p =>
      if structure_exists p then Some (create_workflow now id nm desc ps r)
      else None
  | None => Some (create_workflow now id nm desc ps r)
  end.

(** [MCPService.get_workflow_status]. *)
Definition get_workflow_status (now : string) (id : string) (r : Store)
  : option SimulationStatus :=
  status <$> get_workflow now id r.

(** [MCPService.export_workflow]. *)
Definition export_workflow (now : string) (id output_file : string)
    (w : World) : bool * World :=
  match get_workflow now id (registry w) with
  | None => (false, w)
  | Some workflow =>
      (true, {| registry := registry w;
                other_files :=
                  <[output_file := Some (to_dict workflow)]> (other_files w) |})
  end.

(** [MCPService.import_workflow]: [now] is the clock when the file is
    read, [now'] when the new workflow is created with identifier [id]. *)
Definition import_workflow (now now' id : string) (input_file : string)
    (w : World) : option string * World :=
  match other_files w !! input_file with
  | Some (Some d) =>
      let workflow := from_dict now d in
      match service_create_workflow now' id (name workflow)
              (description workflow) (params workflow) (registry w) with
      | Some (new_id, r') =>
          (Some new_id, {| registry := r'; other_files := other_files w |})
      | None => (None, w)
      end
  | _ => (None, w)
  end.

End WithParams.

Arguments WorkflowMetadata : clear implicits.
Arguments MetadataDict : clear implicits.
Arguments Store : clear implicits.
Arguments World : clear implicits.

(** A registry with one workflow, for the examples. *)
Definition one_workflow : Store unit :=
  (create_workflow "2024-05-01T10:00:00" "wf-1" "lysozyme"
     (Some "first run") None {| documents := ∅; directories := ∅ |}).2.

End Registry.


(** ** monitor.py: the workflow monitor

    Floating point readings ([psutil], elapsed seconds) and time stamps
    are values of two types the model does not look into; [zero] is the
    [0.0] the records start with.  The dictionary [monitored_workflows]
    is a finite map; the objects it holds are updated in place, which the
    model does by writing the entry back. *)
Module Monitor.

Section WithReadings.

Context {F T Params : Type} (zero : F).

(** [status.current_step], read before the records below reuse the
    field names of the source. *)
Definition status_current_step (s : SimulationStatus)
  : option SimulationStep := current_step s.

(** What [progress.current_step] can hold: the [0] it starts with, or
    the [current_step] of a status once [update_status] assigned it. *)
Inductive StepField :=
  | StepCount (n : Z)
  | StepOf (s : option SimulationStep).

Record ResourceUsage := mkUsage {
  cpu_percent : F;
  memory_percent : F;
  disk_usage : F;
  gpu_usage : option F
}.

Record SimulationProgress := mkProgress {
  current_step : StepField;
  total_steps : Z;
  elapsed_time : F;
  estimated_time : F;
  performance : F
}.

Record MonitorData := mkData {
  start_time : T;
  last_check : T;
  resource_usage : ResourceUsage;
  progress : SimulationProgress;
  last_step : option StepField
}.

(** [ResourceUsage()] and [SimulationProgress()]. *)
Definition new_usage : ResourceUsage :=
  {| cpu_percent := zero; memory_percent := zero; disk_usage := zero;
     gpu_usage := None |}.

Definition new_progress : SimulationProgress :=
  {| current_step := StepCount 0; total_steps := 0; elapsed_time := zero;
     estimated_time := zero; performance := zero |}.

(** [start_monitoring]; [now] and [now'] are the two clock readings. *)
Definition start_monitoring (now now' : T) (id : string)
    (ms : gmap string MonitorData) : gmap string MonitorData :=
  match ms !! id with
  | Some _ => ms
  | None =>
      <[id := {| start_time := now; last_check := now';
                 resource_usage := new_usage; progress := new_progress;
                 last_step := None |}]> ms
  end.

(** [stop_monitoring]. *)
Definition stop_monitoring (id : string) (ms : gmap string MonitorData)
  : gmap string MonitorData :=
  match ms !! id with
  | Some _ => delete id ms
  | None => ms
  end.

(** What [update_status] gives: [None], the dictionary, or the
    [AttributeError] of [workflow.status.total_steps], a field
    [SimulationStatus] does not have. *)
Inductive update_result :=
  | NotMonitored
  | Report (timestamp : T) (usage : ResourceUsage)
      (progress_now : SimulationProgress)
  | NoTotalSteps.

(** [update_status]; [cpu], [memory] and [disk] are the [psutil]
    readings and [workflow] is what [get_workflow] answered. *)
Definition update_status (now : T) (cpu memory disk : F)
    (workflow : option (Registry.WorkflowMetadata Params)) (id : string)
    (ms : gmap string MonitorData)
  : update_result * gmap string MonitorData :=
  match ms !! id with
  | None => (NotMonitored, ms)
  | Some data =>
      let usage :=
        {| cpu_percent := cpu; memory_percent := memory;
           disk_usage := disk;
           gpu_usage := gpu_usage (resource_usage data) |} in
      match workflow with
      | Some w =>
          let progress' :=
            {| current_step :=
                 StepOf (status_current_step (Registry.status w));
               total_steps := total_steps (progress data);
               elapsed_time := elapsed_time (progress data);
               estimated_time := estimated_time (progress data);
               performance := performance (progress data) |} in
          (NoTotalSteps,
           <[id := {| start_time := start_time data;
                      last_check := last_check data;
                      resource_usage := usage; progress := progress';
                      last_step := last_step data |}]> ms)
      | None =>
          (Report now usage (progress data),
           <[id := {| start_time := start_time data; last_check := now;
                      resource_usage := usage; progress := progress data;
                      last_step := Some (current_step (progress data)) |}]>
             ms)
      end
  end.

(** [get_performance_stats]: [None] is the empty dictionary; otherwise
    the average performance, the elapsed time and the estimated time. *)
Definition get_performance_stats (id : string)
    (ms : gmap string MonitorData) : option (F * F * F) :=
  match ms !! id with
  | None => None
  | Some data =>
      Some (performance (progress data), elapsed_time (progress data),
            estimated_time (progress data))
  end.

(** [get_resource_usage_history]. *)
Definition get_resource_usage_history (id : string)
    (ms : gmap string MonitorData) : list ResourceUsage :=
  match ms !! id with
  | None => []
  | Some data => [resource_usage data]
  end.

(** The figures no method ever writes. *)
Definition unmeasured (data : MonitorData) : Prop :=
  total_steps (progress data) = 0 ∧
  elapsed_time (progress data) = zero ∧
  estimated_time (progress data) = zero ∧
  performance (progress data) = zero ∧
  gpu_usage (resource_usage data) = None.

(** The monitors a [WorkflowMonitor] can hold: it starts with none, and
    its three methods are called with any readings. *)
Inductive reachable : gmap string MonitorData → Prop :=
  | reach_empty : reachable ∅
  | reach_start ms now now' id :
      reachable ms → reachable (start_monitoring now now' id ms)
  | reach_stop ms id : reachable ms → reachable (stop_monitoring id ms)
  | reach_update ms now cpu memory disk workflow id :
      reachable ms →
      reachable (update_status now cpu memory disk workflow id ms).2.

End WithReadings.

End Monitor.


(** ** Properties of the gateway *)

Example readlines_keeps_ends :
  readlines ("a" +:+ String CR (String LF ("b" +:+ String LF "c")))
  = ["a" +:+ String LF ""; "b" +:+ String LF ""; "c"].
Proof. reflexivity. Qed.

Example contains_inner : contains "Fatal error" "xx Fatal error: y" = true.
Proof. reflexivity. Qed.

Lemma run_gromacs_command_returns E ctx cmd args input st :
  ∃ r st', run_gromacs_command E (Some ctx) cmd args input st = (Ret r, st').
Proof.
  unfold run_gromacs_command; simpl.
  destruct (spawn E _ _ _ _) as [[out err rc|msg] f']; eauto.
Qed.

Lemma run_gromacs_command_None E cmd args input st :
  run_gromacs_command E None cmd args input st
  = (Raise (AttributeError "'NoneType' object has no attribute 'gmx_path'"),
     record_call (mkCall None cmd args input) st).
Proof. reflexivity. Qed.

(** C5.  When the binary cannot be spawned (the spawn raises, whatever the
    cause [msg]), [run_gromacs_command] returns to its caller, and what it
    returns is the record with [success = False], [return_code = -1], an
    empty [stdout] and the cause in [stderr]: nothing is raised.  More
    generally a call on a [Context] always returns a result record. *)
Theorem gateway_spawn_failure_is_data E ctx cmd args input st msg f' :
  spawn E (full_cmd ctx cmd args) input (working_dir ctx) (fs st)
    = (SpawnError msg, f') →
  (∃ st',
     run_gromacs_command E (Some ctx) cmd args input st
     = (Ret {| stdout := ""; stderr := msg; return_code := -1;
               command := join_words (full_cmd ctx cmd args);
               success := false |}, st')) ∧
  (∀ cmd' args' input' st0, ∃ r st',
     run_gromacs_command E (Some ctx) cmd' args' input' st0 = (Ret r, st')).
Proof.
  intros Hspawn. split.
  - unfold run_gromacs_command; simpl. rewrite Hspawn. eauto.
  - intros. apply run_gromacs_command_returns.
Qed.

Lemma gateway_spawn_failure_is_data_witness :
  ∃ st',
    run_gromacs_command no_binary_env (Some default_ctx) "grompp"
      ["-f"; "em.mdp"] None (initial_state empty_fs)
    = (Ret {| stdout := "";
              stderr := "[Errno 2] No such file or directory: 'gmx'";
              return_code := -1;
              command := "gmx grompp -f em.mdp";
              success := false |}, st').
Proof.
  exact (proj1 (gateway_spawn_failure_is_data no_binary_env default_ctx
                  "grompp" ["-f"; "em.mdp"] None (initial_state empty_fs)
                  "[Errno 2] No such file or directory: 'gmx'" empty_fs
                  eq_refl)).
Defined.

(** C9.  The command line depends on whether the configured path is the
    literal ["gmx"]: if it is, the program run is [gmx_path] followed by
    the subcommand and the arguments; for any other path the configured
    path does not appear and the bare subcommand is run with the
    arguments.  The gateway spawns exactly that command line and reports
    it, joined by spaces, in [command]. *)
Theorem gateway_command_line E ctx cmd args input st :
  (gmx_path ctx = "gmx" → full_cmd ctx cmd args = gmx_path ctx :: cmd :: args) ∧
  (gmx_path ctx ≠ "gmx" → full_cmd ctx cmd args = cmd :: args) ∧
  ∃ r st',
    run_gromacs_command E (Some ctx) cmd args input st = (Ret r, st') ∧
    command r = join_words (full_cmd ctx cmd args) ∧
    fs st' = (spawn E (full_cmd ctx cmd args) input (working_dir ctx)
                (fs st)).2.
Proof.
  repeat split.
  - intros H. unfold full_cmd. by rewrite decide_True.
  - intros H. unfold full_cmd. by rewrite decide_False.
  - unfold run_gromacs_command; simpl.
    destruct (spawn E _ _ _ _) as [[out err rc|msg] f']; eauto.
Qed.

Lemma gateway_command_line_witness :
  full_cmd (new_Context "/work" None (Some "/opt/gromacs/bin/gmx"))
    "mdrun" ["-v"; "-deffnm"; "em"]
  = ["mdrun"; "-v"; "-deffnm"; "em"].
Proof.
  apply (proj1 (proj2 (gateway_command_line good_env
           (new_Context "/work" None (Some "/opt/gromacs/bin/gmx"))
           "mdrun" ["-v"; "-deffnm"; "em"] None (initial_state empty_fs)))).
  vm_compute. discriminate.
Defined.

(** ** Properties of the checkpoint store *)

Section CheckpointStore.

Implicit Types (f : FileSystem) (step : SimulationStep) (l : list string).

Lemma FileSystem_eq f f' : files f = files f' → dirs f = dirs f' → f = f'.
Proof. destruct f, f'; simpl. by intros -> ->. Qed.

Lemma string_app_inj (s a b : string) : s +:+ a = s +:+ b → a = b.
Proof. induction s as [|c s IH]; simpl; [done|]. intros [= H]. auto. Qed.

Lemma checkpoint_path_inj step g h :
  checkpoint_path step g = checkpoint_path step h → g = h.
Proof.
  unfold checkpoint_path. intros H.
  apply string_app_inj in H. by apply string_app_inj in H.
Qed.

(** No name of a checkpointed file is itself a path into a checkpoint. *)
Lemma checkpoint_path_fresh step step' g h :
  g ∈ checkpoint_files step → checkpoint_path step' h ≠ g.
Proof.
  intros Hg Heq. subst g.
  destruct step; simpl in Hg;
    repeat match goal with
           | H : _ ∈ [] |- _ => by apply not_elem_of_nil in H
           | H : _ ∈ _ :: _ |- _ =>
               apply elem_of_cons in H as [H|H]; [discriminate H|]
           end.
Qed.

Lemma names_fresh_tail step g l :
  names_fresh step (g :: l) → names_fresh step l.
Proof. intros H g' h Hg'. apply H. by right. Qed.

Lemma file_exists_true f p : file_exists f p = true ↔ is_Some (files f !! p).
Proof. unfold file_exists. apply bool_decide_eq_true. Qed.

Lemma file_exists_false f p : file_exists f p = false ↔ files f !! p = None.
Proof.
  unfold file_exists. rewrite bool_decide_eq_false.
  by rewrite eq_None_not_Some.
Qed.

(** What the loop of [restore_checkpoint] does, started on a store [f]
    that agrees with [f0] on the checkpoint. *)
Lemma restore_files_spec step l f0 : names_fresh step l → ∀ f,
  (∀ h, files f !! checkpoint_path step h = files f0 !! checkpoint_path step h) →
  ∃ f', restore_files step l f
        = (bool_decide (present_prefix step l f0 = l), f') ∧
        dirs f' = dirs f ∧
        ∀ p, files f' !! p
             = if decide (p ∈ present_prefix step l f0)
               then files f0 !! checkpoint_path step p
               else files f !! p.
Proof.
  induction l as [|file rest IH]; intros Hfresh f Hagree; simpl.
  - by exists f.
  - assert (file_exists f (checkpoint_path step file)
            = file_exists f0 (checkpoint_path step file)) as Hex
      by (unfold file_exists; by rewrite Hagree).
    rewrite Hex. destruct (file_exists f0 _) eqn:Hpresent.
    + apply file_exists_true in Hpresent as [content Hc].
      unfold copy2. rewrite Hagree, Hc.
      destruct (IH (names_fresh_tail _ _ _ Hfresh)
                  (write_file file content f)) as (f' & Hrun & Hdirs & Hfiles).
      { intros h. simpl. rewrite lookup_insert_ne; [apply Hagree|].
        intros Heq. eapply Hfresh; [by left|]. symmetry; exact Heq. }
      exists f'. split; [|split].
      * rewrite Hrun. f_equal. apply bool_decide_ext.
        split; [by intros ->|by intros [= ->]].
      * by rewrite Hdirs.
      * intros p. rewrite Hfiles. simpl.
        destruct (decide (p = file)) as [->|Hne].
        -- rewrite lookup_insert_eq.
           rewrite (decide_True (P := file ∈ file :: _)) by by left.
           rewrite Hc. by destruct (decide _).
        -- rewrite lookup_insert_ne by done.
           destruct (decide (p ∈ present_prefix step rest f0)) as [Hin|Hout].
           ++ rewrite decide_True; [done|by right].
           ++ rewrite decide_False; [done|].
              intros [?|?]%elem_of_cons; done.
    + exists f. split; [|split; [done|]].
      * by rewrite bool_decide_eq_false_2.
      * intros p. by rewrite decide_False by apply not_elem_of_nil.
Qed.

(** What the loop of [backup_checkpoint] does. *)
Lemma backup_files_spec step l : names_fresh step l → ∀ f,
  ∃ f', backup_files step l f = Some f' ∧
        dirs f' = dirs f ∧
        (∀ g, g ∈ l →
           files f' !! checkpoint_path step g
           = match files f !! g with
             | Some content => Some content
             | None => files f !! checkpoint_path step g
             end) ∧
        (∀ p, (∀ g, g ∈ l → p ≠ checkpoint_path step g) →
           files f' !! p = files f !! p).
Proof.
  induction l as [|file rest IH]; intros Hfresh f; simpl.
  - exists f. split; [done|]. split; [done|]. split; [|done].
    intros g Hg. by apply not_elem_of_nil in Hg.
  - pose proof (names_fresh_tail _ _ _ Hfresh) as Hfresh'.
    destruct (file_exists f file) eqn:Hpresent.
    + apply file_exists_true in Hpresent as [content Hc].
      unfold copy2. rewrite Hc.
      destruct (IH Hfresh' (write_file (checkpoint_path step file) content f))
        as (f' & Hrun & Hdirs & Hin & Hout).
      assert (∀ g, g ∈ file :: rest →
                files (write_file (checkpoint_path step file) content f) !! g
                = files f !! g) as Hname.
      { intros g Hg. simpl. apply lookup_insert_ne. by apply Hfresh. }
      exists f'. split; [done|]. split; [by rewrite Hdirs|]. split.
      * intros g Hg. destruct (decide (g ∈ rest)) as [Hrest|Hnot].
        -- rewrite (Hin g Hrest), (Hname g Hg). simpl.
           destruct (files f !! g) as [c|] eqn:Hg'; [done|].
           apply lookup_insert_ne. intros Heq%checkpoint_path_inj.
           congruence.
        -- apply elem_of_cons in Hg as [->|?]; [|done].
           rewrite Hout.
           ++ simpl. by rewrite lookup_insert_eq, Hc.
           ++ intros g Hg Heq%checkpoint_path_inj. congruence.
      * intros p Hp. rewrite Hout.
        -- simpl. apply lookup_insert_ne. intros Heq. eapply Hp; [by left|done].
        -- intros g Hg. apply Hp. by right.
    + apply file_exists_false in Hpresent.
      destruct (IH Hfresh' f) as (f' & Hrun & Hdirs & Hin & Hout).
      exists f'. split; [done|]. split; [done|]. split.
      * intros g Hg. destruct (decide (g ∈ rest)) as [Hrest|Hnot]; [by apply Hin|].
        apply elem_of_cons in Hg as [->|?]; [|done].
        rewrite Hpresent. apply Hout.
        intros g Hg Heq%checkpoint_path_inj. congruence.
      * intros p Hp. apply Hout. intros g Hg. apply Hp. by right.
Qed.

Lemma checkpoint_files_fresh step : names_fresh step (checkpoint_files step).
Proof. intros g h Hg. by eapply checkpoint_path_fresh. Qed.

(** [backup_checkpoint] on a working directory that holds every file of
    the step. *)
Lemma backup_checkpoint_saves step f :
  (∀ g, g ∈ checkpoint_files step → is_Some (files f !! g)) →
  ∃ f1, backup_checkpoint step f = Some f1 ∧
        dir_exists f1 (checkpoint_dir step) = true ∧
        (∀ g, g ∈ checkpoint_files step →
           files f1 !! checkpoint_path step g = files f !! g) ∧
        (∀ p, (∀ g, g ∈ checkpoint_files step → p ≠ checkpoint_path step g) →
           files f1 !! p = files f !! p).
Proof.
  intros Hall.
  destruct (backup_files_spec step _ (checkpoint_files_fresh step)
              (mkdir_checkpoint (checkpoint_dir step) f))
    as (f1 & Hbackup & Hdirs & Hin & Hout).
  simpl in Hin, Hout.
  exists f1. split; [done|]. split; [|split; [|done]].
  - unfold dir_exists. apply bool_decide_eq_true_2. rewrite Hdirs. simpl.
    apply elem_of_union_r, elem_of_union_l. by apply elem_of_singleton.
  - intros g Hg. rewrite (Hin g Hg). by destruct (Hall g Hg) as [c ->].
Qed.

(** [restore_checkpoint] on a checkpoint that holds every file of the
    step. *)
Lemma restore_checkpoint_complete step f :
  dir_exists f (checkpoint_dir step) = true →
  (∀ g, g ∈ checkpoint_files step →
     is_Some (files f !! checkpoint_path step g)) →
  ∃ f2, restore_checkpoint step f = (true, f2) ∧
        dirs f2 = dirs f ∧
        ∀ p, files f2 !! p
             = if decide (p ∈ checkpoint_files step)
               then files f !! checkpoint_path step p
               else files f !! p.
Proof.
  intros Hdir Hall.
  assert (∀ l, (∀ g, g ∈ l → g ∈ checkpoint_files step) →
            present_prefix step l f = l) as Hprefix.
  { induction l as [|g l IH]; intros Hl; simpl; [done|].
    assert (file_exists f (checkpoint_path step g) = true) as ->.
    { apply file_exists_true, Hall, Hl. by left. }
    rewrite IH; [done|]. intros h Hh. apply Hl. by right. }
  specialize (Hprefix (checkpoint_files step) (fun g Hg => Hg)).
  destruct (restore_files_spec step (checkpoint_files step) f
              (checkpoint_files_fresh step) f)
    as (f2 & Hrestore & Hdirs & Hfiles); [done|].
  rewrite Hprefix in Hrestore, Hfiles.
  rewrite bool_decide_eq_true_2 in Hrestore; [|reflexivity].
  exists f2. unfold restore_checkpoint. by rewrite Hdir.
Qed.

End CheckpointStore.

(** C2.  [restore_checkpoint] copies file by file and stops at the first
    file the checkpoint does not hold.  Without the checkpoint directory
    it answers [False] and leaves the store as it was.  With the
    directory, it answers [True] exactly when every file of the step is in
    the checkpoint; in either case the files listed before the first
    missing one have been copied over their working copies, and nothing
    else has changed. *)
Theorem restore_checkpoint_copies_prefix (step : SimulationStep)
    (f : FileSystem) :
  (dir_exists f (checkpoint_dir step) = false →
     restore_checkpoint step f = (false, f)) ∧
  (dir_exists f (checkpoint_dir step) = true →
     ∃ f',
       restore_checkpoint step f
       = (bool_decide (present_prefix step (checkpoint_files step) f
                       = checkpoint_files step), f') ∧
       dirs f' = dirs f ∧
       ∀ p, files f' !! p
            = if decide (p ∈ present_prefix step (checkpoint_files step) f)
              then files f !! checkpoint_path step p
              else files f !! p).
Proof.
  unfold restore_checkpoint. split; intros ->; [done|].
  by apply restore_files_spec; [apply checkpoint_files_fresh|].
Qed.

Lemma restore_checkpoint_copies_prefix_witness :
  ∃ f',
    restore_checkpoint MINIMIZATION partial_checkpoint_fs = (false, f') ∧
    dirs f' = dirs partial_checkpoint_fs ∧
    ∀ p, files f' !! p
         = if decide (p ∈ ["em.gro"])
           then files partial_checkpoint_fs !! checkpoint_path MINIMIZATION p
           else files partial_checkpoint_fs !! p.
Proof.
  exact (proj2 (restore_checkpoint_copies_prefix MINIMIZATION
                  partial_checkpoint_fs) eq_refl).
Defined.

(** C2, as stated, fails: on a checkpoint of the minimization that holds
    [em.gro] but not [em.edr], the call answers [False] after it has
    overwritten the working copy of [em.gro]. *)
Lemma restore_checkpoint_not_atomic :
  (restore_checkpoint MINIMIZATION partial_checkpoint_fs).1 = false ∧
  files partial_checkpoint_fs !! "em.gro" = Some "current" ∧
  files (restore_checkpoint MINIMIZATION partial_checkpoint_fs).2 !! "em.gro"
    = Some "checkpointed" ∧
  (restore_checkpoint MINIMIZATION partial_checkpoint_fs).2
    ≠ partial_checkpoint_fs.
Proof.
  repeat split; try (vm_compute; reflexivity).
  intros H.
  apply (f_equal (fun x => files x !! "em.gro")) in H.
  vm_compute in H. discriminate H.
Qed.

(** C8.  On a working directory of the usual layout that holds every file
    of the step, [backup_checkpoint] returns, leaves every path outside
    the checkpoint as it was, and the checkpoint holds the content of
    each file.  [restore_checkpoint] then answers [True] on every store
    whose checkpoint is still as the backup left it, whatever happened to
    the working copies in between (deleted, emptied, overwritten), and
    gives every file of the step the content it had when it was backed
    up; it touches nothing else.  Run on the very store the backup left
    (a working directory otherwise untouched), it answers [True] and
    leaves that store as it is. *)
Theorem backup_then_restore (step : SimulationStep) (f : FileSystem) :
  plain_layout step f = true →
  (∀ g, g ∈ checkpoint_files step → is_Some (files f !! g)) →
  ∃ f1,
    backup_checkpoint step f = Some f1 ∧
    (∀ p, (∀ g, g ∈ checkpoint_files step → p ≠ checkpoint_path step g) →
       files f1 !! p = files f !! p) ∧
    (∀ g, g ∈ checkpoint_files step →
       files f1 !! checkpoint_path step g = files f !! g) ∧
    restore_checkpoint step f1 = (true, f1) ∧
    ∀ later,
      plain_layout step later = true →
      dir_exists later (checkpoint_dir step) = true →
      (∀ g, g ∈ checkpoint_files step →
         files later !! checkpoint_path step g
         = files f1 !! checkpoint_path step g) →
      ∃ f2,
        restore_checkpoint step later = (true, f2) ∧
        (∀ g, g ∈ checkpoint_files step → files f2 !! g = files f !! g) ∧
        (∀ p, p ∉ checkpoint_files step → files f2 !! p = files later !! p) ∧
        dirs f2 = dirs later.
Proof.
  intros _ Hall.
  destruct (backup_checkpoint_saves step f Hall)
    as (f1 & Hbackup & Hdir & Hsaved & Hout).
  pose proof (checkpoint_files_fresh step) as Hfresh.
  exists f1. split; [done|]. split; [done|]. split; [done|]. split.
  - destruct (restore_checkpoint_complete step f1 Hdir)
      as (f2 & Hrestore & Hdirs & Hfiles).
    { intros g Hg. rewrite Hsaved by done. by apply Hall. }
    rewrite Hrestore. f_equal. apply FileSystem_eq; [|done].
    apply map_eq. intros p. rewrite Hfiles.
    destruct (decide _) as [Hin|Hin]; [|done].
    rewrite (Hsaved p Hin). symmetry. apply Hout.
    intros g Hg Heq. by apply (Hfresh p g Hin).
  - intros later _ Hlater Hintact.
    destruct (restore_checkpoint_complete step later Hlater)
      as (f2 & Hrestore & Hdirs & Hfiles).
    { intros g Hg. rewrite Hintact, Hsaved by done. by apply Hall. }
    exists f2. split; [done|]. split; [|split; [|done]].
    + intros g Hg. by rewrite Hfiles, decide_True, Hintact, Hsaved.
    + intros p Hp. by rewrite Hfiles, decide_False.
Qed.

Lemma backup_then_restore_witness :
  ∃ f1 f2,
    backup_checkpoint MINIMIZATION minimized_fs = Some f1 ∧
    files damaged_outputs_fs !! "em.gro" = Some "garbage" ∧
    files damaged_outputs_fs !! "em.edr" = None ∧
    restore_checkpoint MINIMIZATION damaged_outputs_fs = (true, f2) ∧
    files f2 !! "em.gro" = Some "coordinates" ∧
    files f2 !! "em.edr" = Some "energies" ∧
    files f2 !! "em.log" = Some "Finished mdrun".
Proof.
  destruct (backup_then_restore MINIMIZATION minimized_fs)
    as (f1 & Hbackup & _ & _ & _ & Hlater).
  { vm_compute. reflexivity. }
  { intros g Hg. simpl in Hg.
    repeat (apply elem_of_cons in Hg as [->|Hg]; [by eexists|]).
    by apply not_elem_of_nil in Hg. }
  destruct (Hlater damaged_outputs_fs) as (f2 & Hrestore & Hfiles & _).
  { vm_compute. reflexivity. }
  { vm_compute. reflexivity. }
  { intros g Hg.
    assert (Some f1 = backup_checkpoint MINIMIZATION minimized_fs) as Hf1
      by done.
    vm_compute in Hf1. injection Hf1 as ->. simpl in Hg.
    repeat (apply elem_of_cons in Hg as [->|Hg];
            [vm_compute; reflexivity|]).
    by apply not_elem_of_nil in Hg. }
  exists f1, f2. split; [done|].
  split; [vm_compute; reflexivity|]. split; [vm_compute; reflexivity|].
  split; [done|]. split; [|split].
  - etrans; [apply (Hfiles "em.gro"); simpl; by left|done].
  - etrans; [apply (Hfiles "em.edr"); simpl; right; by left|done].
  - etrans; [apply (Hfiles "em.log"); simpl; right; right; by left|done].
Defined.

(** C10.  For the two steps without an entry in the file table
    ([system_preparation] and [analysis]) the table gives no file;
    [restore_checkpoint] answers [True] and leaves the store as it was as
    soon as the directory of the checkpoint exists; [backup_checkpoint]
    returns after creating that directory and copies no file. *)
Theorem checkpoint_of_step_without_files (step : SimulationStep)
    (f : FileSystem) :
  step = SYSTEM_PREPARATION ∨ step = ANALYSIS →
  checkpoint_files step = [] ∧
  (dir_exists f (checkpoint_dir step) = true →
     restore_checkpoint step f = (true, f)) ∧
  ∃ f', backup_checkpoint step f = Some f' ∧
        files f' = files f ∧
        dirs f' = {[ "checkpoints" ]} ∪ ({[ checkpoint_dir step ]} ∪ dirs f) ∧
        dir_exists f' (checkpoint_dir step) = true.
Proof.
  intros [-> | ->]; (split; [done|]); (split;
    [by unfold restore_checkpoint; intros ->|]);
    (eexists; split; [reflexivity|]; split; [done|]; split; [done|]);
    unfold dir_exists; apply bool_decide_eq_true_2; simpl; set_solver.
Qed.

Lemma checkpoint_of_step_without_files_witness :
  restore_checkpoint ANALYSIS (bare_checkpoint_fs ANALYSIS)
  = (true, bare_checkpoint_fs ANALYSIS).
Proof.
  apply (proj1 (proj2 (checkpoint_of_step_without_files ANALYSIS
                         (bare_checkpoint_fs ANALYSIS) (or_intror eq_refl)))).
  vm_compute. reflexivity.
Defined.

(** ** Properties of the controller *)

Section Controller.

Variable E : Env.

Section Keeps.

Context {X : Type} (obs : State → X).

Lemma keeps_ret {A} (a : A) : keeps obs (ret a).
Proof. by intros st o st' [= <- <-]. Qed.

Lemma keeps_raise {A} (e : exn) : keeps obs (raise (A := A) e).
Proof. by intros st o st' [= <- <-]. Qed.

Lemma keeps_modify (g : State → State) :
  (∀ st, obs (g st) = obs st) → keeps obs (modify g).
Proof. intros Hg st o st' [= <- <-]. apply Hg. Qed.

Lemma keeps_bind {A B} (m : M A) (k : A → M B) :
  keeps obs m → (∀ a, keeps obs (k a)) → keeps obs (bind m k).
Proof.
  intros Hm Hk st o st' Hrun. unfold bind in Hrun.
  destruct (m st) as [[a|e|] st1] eqn:Hfirst.
  - rewrite (Hk a _ _ _ Hrun). by eapply Hm.
  - injection Hrun as <- <-. by eapply Hm.
  - injection Hrun as <- <-. by eapply Hm.
Qed.

Lemma keeps_try_except {A} (body : M A) (handler : exn → M A) :
  keeps obs body → (∀ e, keeps obs (handler e)) →
  keeps obs (try_except body handler).
Proof.
  intros Hbody Hhandler st o st' Hrun. unfold try_except in Hrun.
  destruct (body st) as [[a|e|] st1] eqn:Hfirst.
  - injection Hrun as <- <-. by eapply Hbody.
  - rewrite (Hhandler e _ _ _ Hrun). by eapply Hbody.
  - injection Hrun as <- <-. by eapply Hbody.
Qed.

Hypothesis Hblind : env_blind E obs.

Lemma keeps_gateway ctx cmd args input :
  keeps obs (run_gromacs_command E ctx cmd args input).
Proof.
  destruct Hblind as (Hcall & Hspawn & _).
  intros st o st' Hrun. unfold run_gromacs_command in Hrun.
  destruct ctx as [c|].
  - pose proof (Hspawn (record_call (mkCall (Some c) cmd args input) st)
                  (full_cmd c cmd args) input (working_dir c)) as Hs.
    simpl in Hrun, Hs.
    destruct (spawn E _ _ _ _) as [[out err rc|msg] f'];
      injection Hrun as <- <-; simpl in Hs.
    + rewrite <- (Hcall st (mkCall (Some c) cmd args input)).
      apply Hs.
    + rewrite <- (Hcall st (mkCall (Some c) cmd args input)).
      apply (Hs (ctx_log st)).
  - injection Hrun as <- <-. apply Hcall.
Qed.

Lemma keeps_monitor fuel step log_file :
  keeps obs (_monitor_progress E fuel step log_file).
Proof.
  destruct Hblind as (_ & _ & Hsleep).
  induction fuel as [|fuel IH]; intros st o st' Hrun; simpl in Hrun.
  - by injection Hrun as <- <-.
  - destruct (poll_log (fs st) log_file).
    + rewrite (IH _ _ _ Hrun). apply Hsleep.
    + rewrite (IH _ _ _ Hrun). apply Hsleep.
    + by injection Hrun as <- <-.
    + by injection Hrun as <- <-.
Qed.

Lemma keeps_check_output step required_files :
  keeps obs (_check_output_files step required_files).
Proof. by intros st o st' [= <- <-]. Qed.

Lemma keeps_validate_energy vctx step energy_file :
  keeps obs (_validate_energy_with E vctx step energy_file).
Proof.
  apply keeps_try_except; [|intros; apply keeps_ret].
  apply keeps_bind; [apply keeps_gateway|].
  intros r. destruct (decide _); apply keeps_ret.
Qed.

Lemma keeps_check_previous ph : keeps obs (check_previous ph).
Proof.
  intros st o st' Hrun. unfold check_previous in Hrun.
  destruct (ph_requires ph) as [[previous msg]|].
  - destruct (decide _); by injection Hrun as <- <-.
  - by injection Hrun as <- <-.
Qed.

Lemma keeps_launch ph ctx :
  (∀ st, obs (set_fs (write_file (ph_mdp ph) (ph_mdp_text ph)) st) = obs st) →
  keeps obs (launch E ph ctx).
Proof.
  intros Hmdp. unfold launch.
  apply keeps_bind; [apply keeps_check_previous|intros _].
  apply keeps_bind; [by apply keeps_modify|intros _].
  apply keeps_bind; [apply keeps_gateway|intros grompp_result].
  apply keeps_bind;
    [destruct (decide _); [apply keeps_raise|apply keeps_ret]|intros _].
  apply keeps_bind; [apply keeps_gateway|intros mdrun_result].
  apply keeps_ret.
Qed.

End Keeps.

Lemma env_blind_status : env_blind E status.
Proof. by repeat split. Qed.

(** *** The shape of a run *)

Lemma run_phase_unfold vctx fuel ph ctx st :
  run_phase E vctx fuel ph ctx st
  = match phase_body E vctx fuel ph ctx
            (set_status (set_current_step (ph_step ph)) st) with
    | (Raise e, st') => (Raise e, failed_with (ph_step ph) e st')
    | r => r
    end.
Proof.
  unfold run_phase, bind, modify, try_except, raise; simpl.
  by destruct (phase_body _ _ _ _ _ _) as [[r|e|] st'].
Qed.

Lemma phase_body_unfold vctx fuel ph ctx st :
  phase_body E vctx fuel ph ctx st
  = match launch E ph ctx st with
    | (Ret launched, st1) =>
        match _monitor_progress E fuel (ph_step ph) (ph_log ph) st1 with
        | (Ret _, st2) =>
            validate_and_commit E vctx ph launched.1 launched.2 st2
        | (Raise e, st2) => (Raise e, st2)
        | (Hang, st2) => (Hang, st2)
        end
    | (Raise e, st1) => (Raise e, st1)
    | (Hang, st1) => (Hang, st1)
    end.
Proof. reflexivity. Qed.

Lemma validate_and_commit_unfold vctx ph g m st :
  validate_and_commit E vctx ph g m st
  = if check_files (fs st) (ph_required_files ph) then
      match _validate_energy_with E vctx (ph_step ph) (ph_energy_file ph) st
      with
      | (Ret true, st') =>
          (Ret {| res_grompp := g; res_mdrun := m; res_status := "success" |},
           set_status (append_completed (ph_step ph)) st')
      | (Ret false, st') =>
          (Raise (SimulationError
                    (step_str E (ph_step ph) +:+ " 能量验证失败")), st')
      | (Raise e, st') => (Raise e, st')
      | (Hang, st') => (Hang, st')
      end
    else (Raise (SimulationError
                   (step_str E (ph_step ph) +:+ " 输出文件验证失败")), st).
Proof.
  unfold validate_and_commit, bind, _check_output_files.
  destruct (check_files _ _); [|reflexivity]. simpl.
  by destruct (_validate_energy_with _ _ _ _ _) as [[[|]|e|] st'].
Qed.

(** Energy validation as the source calls it: the gateway is entered
    with [None], raises, and the handler answers [False]. *)
Lemma _validate_energy_fails step energy_file st :
  _validate_energy E step energy_file st
  = (Ret false,
     record_call (mkCall None "energy"
                    ["-f"; energy_file; "-o"; value step +:+ "_energy.xvg"]
                    None) st).
Proof. reflexivity. Qed.

Lemma validate_and_commit_status vctx ph g m st o st' :
  validate_and_commit E vctx ph g m st = (o, st') →
  status st' = match o with
               | Ret _ => append_completed (ph_step ph) (status st)
               | _ => status st
               end.
Proof.
  rewrite validate_and_commit_unfold. intros Hrun.
  destruct (check_files _ _); [|by injection Hrun as <- <-].
  destruct (_validate_energy_with _ _ _ _ _) as [[[|]|e|] st3] eqn:Hv;
    injection Hrun as <- <-; simpl;
    by rewrite (keeps_validate_energy status env_blind_status _ _ _ _ _ _ Hv).
Qed.

Lemma launch_status ph ctx : keeps status (launch E ph ctx).
Proof. by apply keeps_launch; [apply env_blind_status|]. Qed.

Lemma phase_body_status vctx fuel ph ctx st o st' :
  phase_body E vctx fuel ph ctx st = (o, st') →
  status st' = match o with
               | Ret _ => append_completed (ph_step ph) (status st)
               | _ => status st
               end.
Proof.
  rewrite phase_body_unfold. intros Hrun.
  destruct (launch _ _ _ _) as [[launched|e|] st1] eqn:Hlaunch;
    pose proof (launch_status _ _ _ _ _ Hlaunch) as H1;
    [|by injection Hrun as <- <-..].
  destruct (_monitor_progress _ _ _ _ _) as [[[]|e|] st2] eqn:Hmon;
    pose proof (keeps_monitor status env_blind_status _ _ _ _ _ _ Hmon) as H2;
    [|injection Hrun as <- <-; congruence..].
  rewrite (validate_and_commit_status _ _ _ _ _ _ _ Hrun).
  destruct o; congruence.
Qed.

Lemma run_phase_status vctx fuel ph ctx st o st' :
  run_phase E vctx fuel ph ctx st = (o, st') →
  status st'
  = match o with
    | Ret _ =>
        append_completed (ph_step ph)
          (set_current_step (ph_step ph) (status st))
    | Raise e =>
        set_error (ph_step ph) (str_exn e)
          (set_current_step (ph_step ph) (status st))
    | Hang => set_current_step (ph_step ph) (status st)
    end.
Proof.
  rewrite run_phase_unfold. intros Hrun.
  destruct (phase_body _ _ _ _ _ _) as [[r|e|] st1] eqn:Hbody;
    apply phase_body_status in Hbody; injection Hrun as <- <-; simpl;
    by rewrite Hbody.
Qed.

(** The source's own calls never return: with [None] handed to the
    gateway the energy validation answers [False] whatever the engine
    did, so the [try] block always leaves through [raise] (or hangs in
    the monitor). *)
Lemma run_phase_None_never_returns fuel ph ctx st r st' :
  run_phase E None fuel ph ctx st ≠ (Ret r, st').
Proof.
  rewrite run_phase_unfold, phase_body_unfold.
  destruct (launch _ _ _ _) as [[launched|e|] st1]; [|done..].
  destruct (_monitor_progress _ _ _ _ _) as [[[]|e|] st2]; [|done..].
  rewrite validate_and_commit_unfold.
  by destruct (check_files _ _).
Qed.

Lemma run_phase_turned_away vctx fuel ph ctx st previous msg :
  ph_requires ph = Some (previous, msg) →
  previous ∉ completed_steps (status st) →
  turned_away (run_phase E vctx fuel ph ctx st) st (ph_step ph) msg.
Proof.
  intros Hreq Hnot.
  rewrite run_phase_unfold, phase_body_unfold.
  unfold launch, bind, check_previous. simpl. rewrite Hreq.
  rewrite decide_False by done. simpl.
  repeat split. simpl. apply lookup_insert_eq.
Qed.

(** C1.  Each of the three methods that check their predecessor
    ([run_nvt_equilibration], [run_npt_equilibration], [run_production])
    raises the ordering error when that predecessor is not in
    [completed_steps], records its message under the step in [errors],
    and does so before anything else: the gateway is not entered, and the
    store, [ctx.log] and [completed_steps] are as they were.
    ([run_minimization] has no such check.) *)
Theorem previous_step_checked_before_gateway fuel ctx st :
  (MINIMIZATION ∉ completed_steps (status st) →
     turned_away (run_nvt_equilibration E fuel ctx st) st
       NVT_EQUILIBRATION "必须先完成能量最小化") ∧
  (NVT_EQUILIBRATION ∉ completed_steps (status st) →
     turned_away (run_npt_equilibration E fuel ctx st) st
       NPT_EQUILIBRATION "必须先完成NVT平衡") ∧
  (NPT_EQUILIBRATION ∉ completed_steps (status st) →
     turned_away (run_production E fuel ctx st) st
       PRODUCTION "必须先完成NPT平衡").
Proof.
  split; [|split]; intros Hnot.
  - by apply (run_phase_turned_away None fuel (nvt_phase E) ctx st
                MINIMIZATION _ eq_refl).
  - by apply (run_phase_turned_away None fuel (npt_phase E) ctx st
                NVT_EQUILIBRATION _ eq_refl).
  - by apply (run_phase_turned_away None fuel (production_phase E) ctx st
                NPT_EQUILIBRATION _ eq_refl).
Qed.

(** *** The monitor *)

Lemma set_fs_const_id st f : fs st = f → set_fs (fun _ => f) st = st.
Proof. intros <-. by destruct st. Qed.

(** Polls that decide nothing only use up fuel. *)
Lemma monitor_skips step log_file f n f' :
  polls_until E log_file f n f' → ∀ fuel st, fs st = f →
  _monitor_progress E (n + fuel) step log_file st
  = _monitor_progress E fuel step log_file (set_fs (fun _ => f') st).
Proof.
  induction 1 as [f|f n f' Hpoll _ IH|f n f' Hpoll _ IH];
    intros fuel st Hfs.
  - simpl. by rewrite set_fs_const_id.
  - simpl. rewrite Hfs, Hpoll.
    rewrite (IH fuel (set_fs (sleep E 1) st)); [done|].
    simpl. by rewrite Hfs.
  - simpl. rewrite Hfs, Hpoll.
    rewrite (IH fuel (set_fs (sleep E 5) st)); [done|].
    simpl. by rewrite Hfs.
Qed.

Lemma poll_log_fatal f log_file content last_line :
  files f !! log_file = Some content →
  last (readlines content) = Some last_line →
  contains "Fatal error" last_line = true →
  contains "Finished mdrun" last_line = false →
  poll_log f log_file = Fatal last_line.
Proof. unfold poll_log. by intros -> -> -> ->. Qed.

Lemma monitor_fatal step log_file f n f' last_line fuel st :
  polls_until E log_file f n f' →
  poll_log f' log_file = Fatal last_line →
  (n < fuel)%nat → fs st = f →
  _monitor_progress E fuel step log_file st
  = (Raise (SimulationError (step_str E step +:+ " 模拟失败")),
     set_fs (fun _ => f') st).
Proof.
  intros Hpolls Hfatal Hfuel Hfs.
  replace fuel with (n + S (fuel - n - 1))%nat by lia.
  rewrite (monitor_skips _ _ _ _ _ Hpolls _ _ Hfs).
  simpl. by rewrite Hfatal.
Qed.

Lemma monitor_finished step log_file f n f' fuel st :
  polls_until E log_file f n f' →
  poll_log f' log_file = Finished →
  (n < fuel)%nat → fs st = f →
  _monitor_progress E fuel step log_file st
  = (Ret tt, set_fs (fun _ => f') st).
Proof.
  intros Hpolls Hdone Hfuel Hfs.
  replace fuel with (n + S (fuel - n - 1))%nat by lia.
  rewrite (monitor_skips _ _ _ _ _ Hpolls _ _ Hfs).
  simpl. by rewrite Hdone.
Qed.

Lemma append_not_empty (s t : string) : t ≠ "" → s +:+ t ≠ "".
Proof. intros Ht. destruct s; [done|discriminate]. Qed.

(** C6.  When an attempt has launched [mdrun] and the monitor, after any
    number of polls that decided nothing, reads a log whose last line
    contains ["Fatal error"] and does not contain ["Finished mdrun"]
    (which is tested first), the monitor raises, the method re-raises,
    the message recorded under the step in [errors] is not empty, and
    [completed_steps] is as it was before the attempt. *)
Theorem fatal_marker_fails_the_phase vctx fuel ph ctx st launched st1 n f'
    content last_line :
  launch E ph ctx (set_status (set_current_step (ph_step ph)) st)
    = (Ret launched, st1) →
  polls_until E (ph_log ph) (fs st1) n f' →
  files f' !! ph_log ph = Some content →
  last (readlines content) = Some last_line →
  contains "Fatal error" last_line = true →
  contains "Finished mdrun" last_line = false →
  (n < fuel)%nat →
  _monitor_progress E fuel (ph_step ph) (ph_log ph) st1
    = (Raise (SimulationError (step_str E (ph_step ph) +:+ " 模拟失败")),
       set_fs (fun _ => f') st1) ∧
  ∃ st',
    run_phase E vctx fuel ph ctx st
      = (Raise (SimulationError (step_str E (ph_step ph) +:+ " 模拟失败")),
         st') ∧
    errors (status st') !! ph_step ph
      = Some (step_str E (ph_step ph) +:+ " 模拟失败") ∧
    step_str E (ph_step ph) +:+ " 模拟失败" ≠ "" ∧
    completed_steps (status st') = completed_steps (status st) ∧
    fs st' = f'.
Proof.
  intros Hlaunch Hpolls Hlog Hlast Hfatal Hnotdone Hfuel.
  pose proof (poll_log_fatal _ _ _ _ Hlog Hlast Hfatal Hnotdone) as Hpoll.
  pose proof (monitor_fatal (ph_step ph) _ _ _ _ _ fuel st1
                Hpolls Hpoll Hfuel eq_refl) as Hmon.
  split; [done|].
  eexists. rewrite run_phase_unfold, phase_body_unfold, Hlaunch, Hmon.
  split; [reflexivity|]. simpl. split; [apply lookup_insert_eq|].
  split; [by apply append_not_empty|]. split; [|done].
  by rewrite (launch_status _ _ _ _ _ Hlaunch).
Qed.

(** *** Output validation *)

Lemma length_zero_empty (s : string) : String.length s = 0%nat ↔ s = "".
Proof. by destruct s. Qed.

Lemma check_files_true f l :
  check_files f l = true ↔
  ∀ file, file ∈ l → ∃ content, files f !! file = Some content ∧ content ≠ "".
Proof.
  induction l as [|file rest IH]; simpl.
  - split; [|done]. intros _ file Hin. by apply not_elem_of_nil in Hin.
  - destruct (files f !! file) as [content|] eqn:Hfile.
    + destruct (decide (String.length content = 0%nat)) as [Hlen|Hlen].
      * split; [done|]. intros Hall.
        destruct (Hall file) as (c & Hc & Hne); [by left|].
        apply length_zero_empty in Hlen. congruence.
      * rewrite IH. split.
        -- intros Hall g [->|Hg]%elem_of_cons; [|by apply Hall].
           exists content. split; [done|].
           by rewrite <- length_zero_empty.
        -- intros Hall g Hg. apply Hall. by right.
    + split; [done|]. intros Hall.
      destruct (Hall file) as (c & Hc & _); [by left|]. congruence.
Qed.

(** C7.  When an attempt has come through [launch] and the monitor and
    a required output file is then missing or empty, the method raises the
    output validation error: the message is recorded under the step,
    [completed_steps] is as it was before the attempt, energy validation
    and the gateway are not entered, and the store is left as the
    validation found it (nothing is copied to a checkpoint).  The check
    itself answers [True] exactly when every required file exists and is
    not empty. *)
Theorem missing_output_fails_validation vctx fuel ph ctx st launched st1 st2
    file :
  launch E ph ctx (set_status (set_current_step (ph_step ph)) st)
    = (Ret launched, st1) →
  _monitor_progress E fuel (ph_step ph) (ph_log ph) st1 = (Ret tt, st2) →
  file ∈ ph_required_files ph →
  files (fs st2) !! file = None ∨ files (fs st2) !! file = Some "" →
  (∃ st',
     run_phase E vctx fuel ph ctx st
       = (Raise (SimulationError
                   (step_str E (ph_step ph) +:+ " 输出文件验证失败")),
          st') ∧
     errors (status st') !! ph_step ph
       = Some (step_str E (ph_step ph) +:+ " 输出文件验证失败") ∧
     completed_steps (status st') = completed_steps (status st) ∧
     gateway_calls st' = gateway_calls st2 ∧
     fs st' = fs st2) ∧
  (∀ f l,
     check_files f l = true ↔
     ∀ g, g ∈ l → ∃ content, files f !! g = Some content ∧ content ≠ "").
Proof.
  intros Hlaunch Hmon Hfile Hbad. split; [|apply check_files_true].
  assert (check_files (fs st2) (ph_required_files ph) = false) as Hcheck.
  { apply not_true_is_false. rewrite check_files_true. intros Hall.
    destruct (Hall file Hfile) as (c & Hc & Hne).
    destruct Hbad as [Hbad|Hbad]; congruence. }
  eexists.
  rewrite run_phase_unfold, phase_body_unfold, Hlaunch, Hmon.
  rewrite validate_and_commit_unfold, Hcheck.
  split; [reflexivity|]. simpl. split; [apply lookup_insert_eq|].
  split; [|done].
  rewrite (keeps_monitor status env_blind_status _ _ _ _ _ _ Hmon).
  by rewrite (launch_status _ _ _ _ _ Hlaunch).
Qed.

(** *** What an attempt does to the status *)

(** What a call of a [run_*] method, as the source has it, does to the
    status: nothing is appended to [completed_steps], a call that ends
    leaves a message under its step, and no message is ever removed. *)
Lemma run_phase_None_records fuel ph ctx st :
  completed_steps (status (run_phase E None fuel ph ctx st).2)
    = completed_steps (status st) ∧
  (ended (run_phase E None fuel ph ctx st).1 = true →
     is_Some (errors (status (run_phase E None fuel ph ctx st).2)
                !! ph_step ph)) ∧
  (∀ step, is_Some (errors (status st) !! step) →
     is_Some (errors (status (run_phase E None fuel ph ctx st).2) !! step)).
Proof.
  destruct (run_phase E None fuel ph ctx st) as [o st'] eqn:Hrun. simpl.
  rewrite (run_phase_status _ _ _ _ _ _ _ Hrun).
  destruct o as [r|e|]; simpl.
  - by apply run_phase_None_never_returns in Hrun.
  - split; [done|]. split.
    + intros _. rewrite lookup_insert_eq. by eexists.
    + intros step Hsome. destruct (decide (ph_step ph = step)) as [->|Hne].
      * rewrite lookup_insert_eq. by eexists.
      * by rewrite lookup_insert_ne.
  - by repeat split.
Qed.

(** C3.  The commit is never reached.  When an attempt has come through
    [launch] and the monitor, and every required output file is there and
    not empty, the one step left before the append to [completed_steps]
    is the energy validation.  It hands [None] to the gateway, which
    raises before it spawns anything, and answers [False]: the method
    raises the energy validation error and records it under the step,
    [completed_steps] is as it was before the attempt, and the store is
    left as the output validation found it (no checkpoint directory is
    created, nothing is copied, no record is saved). *)
Theorem validated_run_is_not_committed fuel ph ctx st launched st1 st2 :
  launch E ph ctx (set_status (set_current_step (ph_step ph)) st)
    = (Ret launched, st1) →
  _monitor_progress E fuel (ph_step ph) (ph_log ph) st1 = (Ret tt, st2) →
  check_files (fs st2) (ph_required_files ph) = true →
  ∃ st',
    run_phase E None fuel ph ctx st
      = (Raise (SimulationError
                  (step_str E (ph_step ph) +:+ " 能量验证失败")), st') ∧
    errors (status st') !! ph_step ph
      = Some (step_str E (ph_step ph) +:+ " 能量验证失败") ∧
    completed_steps (status st') = completed_steps (status st) ∧
    gateway_calls st'
      = (gateway_calls st2 ++
         [mkCall None "energy"
            ["-f"; ph_energy_file ph; "-o";
             value (ph_step ph) +:+ "_energy.xvg"] None])%list ∧
    ctx_log st' = ctx_log st2 ∧
    fs st' = fs st2.
Proof.
  intros Hlaunch Hmon Hcheck. eexists.
  rewrite run_phase_unfold, phase_body_unfold, Hlaunch, Hmon.
  rewrite validate_and_commit_unfold, Hcheck.
  change (_validate_energy_with E None) with (_validate_energy E).
  rewrite _validate_energy_fails.
  split; [reflexivity|]. simpl. split; [apply lookup_insert_eq|].
  split; [|done].
  rewrite (keeps_monitor status env_blind_status _ _ _ _ _ _ Hmon).
  by rewrite (launch_status _ _ _ _ _ Hlaunch).
Qed.

End Controller.

(** *** The status across calls *)

(** In every state a workflow can be in, [completed_steps] is empty and
    every attempt that has ended has its message in [errors]. *)
Lemma attempted_errors st l :
  attempted st l →
  completed_steps (status st) = [] ∧
  ∀ step, step ∈ l → is_Some (errors (status st) !! step).
Proof.
  assert (∀ E fuel ph ctx st l,
            (completed_steps (status st) = [] ∧
             ∀ step, step ∈ l → is_Some (errors (status st) !! step)) →
            completed_steps (status (run_phase E None fuel ph ctx st).2) = [] ∧
            ∀ step,
              step ∈ note_attempt (ph_step ph)
                       (run_phase E None fuel ph ctx st).1 l →
              is_Some (errors (status (run_phase E None fuel ph ctx st).2)
                         !! step)) as Hstep.
  { intros E fuel ph ctx st0 l0 [Hc Herr].
    destruct (run_phase_None_records E fuel ph ctx st0)
      as (Hc' & Hnew & Hold).
    split; [congruence|]. intros step Hin. unfold note_attempt in Hin.
    destruct (ended _); [|by apply Hold, Herr].
    apply elem_of_cons in Hin as [->|Hin]; [by apply Hnew|].
    by apply Hold, Herr. }
  induction 1 as [f|E st l fuel ctx _ IH|E st l fuel ctx _ IH
                  |E st l fuel ctx _ IH|E st l fuel ctx _ IH|st l g _ IH].
  - split; [done|]. intros step Hin. by apply not_elem_of_nil in Hin.
  - by apply (Hstep E fuel (minimization_phase E)).
  - by apply (Hstep E fuel (nvt_phase E)).
  - by apply (Hstep E fuel (npt_phase E)).
  - by apply (Hstep E fuel (production_phase E)).
  - done.
Qed.

(** C4.  The status invariant holds in every state a workflow can be in.
    No [run_*] method ever appends to [completed_steps], so no step is
    ever in both [completed_steps] and [errors] and none is listed twice;
    and every attempt that has ended has raised and left its message
    under its step, which no later call removes, so every step that was
    attempted is in [errors] and not in [completed_steps]. *)
Theorem status_invariant_of_the_workflow st l :
  attempted st l →
  (∀ step, step ∈ l → recorded_once (status st) step) ∧
  (∀ step, ¬ (step ∈ completed_steps (status st) ∧
              is_Some (errors (status st) !! step))) ∧
  NoDup (completed_steps (status st)).
Proof.
  intros [Hc Herr]%attempted_errors.
  split; [|split].
  - intros step Hin. right. rewrite Hc.
    split; [apply not_elem_of_nil|by apply Herr].
  - intros step [Hin _]. rewrite Hc in Hin. by apply not_elem_of_nil in Hin.
  - rewrite Hc. apply NoDup_nil_2.
Qed.

(** ** The properties on concrete runs *)

Lemma previous_step_checked_before_gateway_witness :
  turned_away
    (run_nvt_equilibration good_env 1 default_ctx (initial_state empty_fs))
    (initial_state empty_fs) NVT_EQUILIBRATION "必须先完成能量最小化".
Proof.
  apply (proj1 (previous_step_checked_before_gateway good_env 1 default_ctx
                  (initial_state empty_fs))).
  simpl. apply not_elem_of_nil.
Defined.

(** C1, as stated, fails for the minimization: on a fresh workflow, whose
    [completed_steps] does not hold [SYSTEM_PREPARATION], the method
    enters the gateway three times, and the error it ends with is not an
    ordering error. *)
Lemma minimization_enters_gateway_unprepared :
  (SYSTEM_PREPARATION ∉ completed_steps (status (initial_state empty_fs))) ∧
  map call_cmd
    (gateway_calls
       (run_minimization good_env 1 default_ctx (initial_state empty_fs)).2)
  = ["grompp"; "mdrun"; "energy"] ∧
  (run_minimization good_env 1 default_ctx (initial_state empty_fs)).1
  = Raise (SimulationError "minimization 能量验证失败").
Proof.
  split; [apply not_elem_of_nil|]. split; vm_compute; reflexivity.
Qed.

Lemma validated_run_is_not_committed_witness :
  ∃ st',
    run_minimization good_env 1 default_ctx (initial_state empty_fs)
      = (Raise (SimulationError "minimization 能量验证失败"), st') ∧
    check_files (fs st') ["em.gro"; "em.edr"; "em.log"] = true ∧
    poll_log (fs st') "em.log" = Finished ∧
    map log_return_code (ctx_log st') = [0; 0] ∧
    errors (status st') !! MINIMIZATION = Some "minimization 能量验证失败" ∧
    completed_steps (status st') = [] ∧
    dir_exists (fs st') (checkpoint_dir MINIMIZATION) = false.
Proof.
  edestruct (validated_run_is_not_committed good_env 1
               (minimization_phase good_env) default_ctx
               (initial_state empty_fs))
    as (st' & Hrun & Herr & Hc & _ & Hlog & Hfs).
  - vm_compute. reflexivity.
  - vm_compute. reflexivity.
  - vm_compute. reflexivity.
  - exists st'. split; [done|]. rewrite Hfs, Hlog.
    split; [vm_compute; reflexivity|]. split; [vm_compute; reflexivity|].
    split; [vm_compute; reflexivity|]. split; [done|]. split; [done|].
    vm_compute. reflexivity.
Defined.

Lemma status_invariant_of_the_workflow_witness :
  let first :=
    run_minimization good_env 1 default_ctx (initial_state empty_fs) in
  let second := run_nvt_equilibration good_env 1 default_ctx first.2 in
  recorded_once (status second.2) MINIMIZATION ∧
  recorded_once (status second.2) NVT_EQUILIBRATION.
Proof.
  intros first second.
  pose proof (proj1 (status_invariant_of_the_workflow second.2
                       (note_attempt NVT_EQUILIBRATION second.1
                          (note_attempt MINIMIZATION first.1 []))
                       (att_nvt good_env first.2 _ 1 default_ctx
                          (att_minimization good_env _ [] 1 default_ctx
                             (att_fresh empty_fs))))) as Hall.
  split; apply Hall; vm_compute.
  - right. left.
  - left.
Defined.

Lemma fatal_marker_fails_the_phase_witness :
  ∃ st',
    run_minimization fatal_env 1 default_ctx (initial_state empty_fs)
      = (Raise (SimulationError "minimization 模拟失败"), st') ∧
    errors (status st') !! MINIMIZATION = Some "minimization 模拟失败" ∧
    completed_steps (status st') = [].
Proof.
  edestruct (fatal_marker_fails_the_phase fatal_env None 1
               (minimization_phase fatal_env) default_ctx
               (initial_state empty_fs))
    as (_ & st' & Hrun & Herr & _ & Hc & _).
  - vm_compute. reflexivity.
  - apply polls_here.
  - vm_compute. reflexivity.
  - vm_compute. reflexivity.
  - vm_compute. reflexivity.
  - vm_compute. reflexivity.
  - lia.
  - exists st'. by repeat split.
Defined.

(** C6, as stated, fails: the completion marker is tested first, so a
    last line that contains both markers ends the monitor normally.  The
    attempt then goes on to validation; as the source has it the error
    recorded is the energy validation's, and with energy validation given
    a context the step is committed. *)
Lemma completion_marker_hides_fatal_error :
  last (readlines both_markers_log) = Some both_markers_log ∧
  contains "Fatal error" both_markers_log = true ∧
  (let st := initial_state (write_file "em.log" both_markers_log empty_fs)
   in _monitor_progress good_env 1 MINIMIZATION "em.log" st = (Ret tt, st)) ∧
  (let r := run_minimization both_markers_env 1 default_ctx
              (initial_state empty_fs)
   in files (fs r.2) !! "em.log" = Some both_markers_log ∧
      r.1 = Raise (SimulationError "minimization 能量验证失败")) ∧
  (let r := run_phase both_markers_env (Some default_ctx) 1
              (minimization_phase both_markers_env) default_ctx
              (initial_state empty_fs)
   in (∃ result, r.1 = Ret result) ∧
      completed_steps (status r.2) = [MINIMIZATION] ∧
      errors (status r.2) !! MINIMIZATION = None).
Proof.
  repeat split; try (vm_compute; reflexivity).
  eexists. vm_compute. reflexivity.
Qed.

Lemma missing_output_fails_validation_witness :
  ∃ st',
    run_minimization no_edr_env 1 default_ctx (initial_state empty_fs)
      = (Raise (SimulationError "minimization 输出文件验证失败"), st') ∧
    completed_steps (status st') = [] ∧
    dir_exists (fs st') (checkpoint_dir MINIMIZATION) = false.
Proof.
  edestruct (missing_output_fails_validation no_edr_env None 1
               (minimization_phase no_edr_env) default_ctx
               (initial_state empty_fs))
    as ((st' & Hrun & _ & Hc & _ & Hfs) & _).
  - vm_compute. reflexivity.
  - vm_compute. reflexivity.
  - simpl. right. left.
  - left. vm_compute. reflexivity.
  - exists st'. split; [done|]. split; [done|].
    unfold dir_exists. rewrite Hfs. vm_compute. reflexivity.
Defined.

(** Without a log, and with nothing happening during the sleeps, the
    monitor uses up any amount of fuel. *)
Lemma monitor_waits_for_log (E : Env) step log_file :
  (∀ n f, sleep E n f = f) → ∀ fuel st,
  files (fs st) !! log_file = None →
  _monitor_progress E fuel step log_file st = (Hang, st).
Proof.
  intros Hsleep. induction fuel as [|fuel IH]; intros st Hnone; [done|].
  simpl. unfold poll_log. rewrite Hnone.
  assert (set_fs (sleep E 1) st = st) as ->.
  { destruct st as [f s l c]. unfold set_fs. simpl. by rewrite Hsleep. }
  by apply IH.
Qed.

(** C7, as stated, fails when the missing file is the log itself: the
    engine exited with 0 on both commands, [em.log] is absent, and the
    method never reaches the validation; whatever the fuel, it is still
    waiting in the monitor, with nothing recorded in [errors]. *)
Lemma missing_log_is_never_validated :
  "em.log" ∈ ph_required_files (minimization_phase no_log_env) ∧
  ∀ fuel,
    let r := run_minimization no_log_env fuel default_ctx
               (initial_state empty_fs) in
    r.1 = Hang ∧
    files (fs r.2) !! "em.log" = None ∧
    map log_return_code (ctx_log r.2) = [0; 0] ∧
    errors (status r.2) = ∅.
Proof.
  split; [simpl; right; right; left|]. intros fuel.
  assert (∃ launched st1,
            launch no_log_env (minimization_phase no_log_env) default_ctx
              (set_status (set_current_step MINIMIZATION)
                 (initial_state empty_fs)) = (Ret launched, st1) ∧
            files (fs st1) !! "em.log" = None ∧
            map log_return_code (ctx_log st1) = [0; 0] ∧
            errors (status st1) = ∅)
    as (launched & st1 & Hlaunch & Hlog & Hcodes & Herr).
  { eexists _, _. repeat split; vm_compute; reflexivity. }
  unfold run_minimization. simpl.
  rewrite run_phase_unfold, phase_body_unfold.
  change (ph_step (minimization_phase no_log_env)) with MINIMIZATION.
  rewrite Hlaunch.
  change (ph_log (minimization_phase no_log_env)) with "em.log".
  by rewrite (monitor_waits_for_log no_log_env MINIMIZATION "em.log"
                (fun _ _ => eq_refl) fuel st1 Hlog).
Qed.

(** ** Further properties of the gateway and the controller *)

Section Further.

Variable E : Env.


Lemma gateway_calls_after ctx cmd args input st o st' :
  run_gromacs_command E ctx cmd args input st = (o, st') →
  gateway_calls st' = (gateway_calls st ++ [mkCall ctx cmd args input])%list.
Proof.
  intros Hrun.
  unfold run_gromacs_command in Hrun. destruct ctx as [c|]; simpl in Hrun.
  - by destruct (spawn E _ _ _ _) as [[out err rc|msg] f'];
      injection Hrun as <- <-.
  - by injection Hrun as <- <-.
Qed.

Lemma gateway_records_its_call ctx cmd args input :
  calls_within (fun c => c = mkCall ctx cmd args input)
    (run_gromacs_command E ctx cmd args input).
Proof.
  intros st o st' Hrun. exists [mkCall ctx cmd args input].
  split; [by eapply gateway_calls_after|by constructor].
Qed.

Section CallsWithin.

Context (P : GatewayCall → Prop).

Lemma calls_within_keeps {A} (m : M A) :
  keeps gateway_calls m → calls_within P m.
Proof.
  intros Hm st o st' Hrun. exists []. split; [|done].
  rewrite (Hm _ _ _ Hrun). by rewrite app_nil_r.
Qed.

Lemma calls_within_bind {A B} (m : M A) (k : A → M B) :
  calls_within P m → (∀ a, calls_within P (k a)) →
  calls_within P (bind m k).
Proof.
  intros Hm Hk st o st' Hrun. unfold bind in Hrun.
  destruct (m st) as [[a|e|] st1] eqn:Hfirst;
    destruct (Hm _ _ _ Hfirst) as (l1 & Hl1 & HP1).
  - destruct (Hk a _ _ _ Hrun) as (l2 & Hl2 & HP2).
    exists (l1 ++ l2)%list. split; [|by apply Forall_app].
    by rewrite Hl2, Hl1, app_assoc.
  - injection Hrun as <- <-. by exists l1.
  - injection Hrun as <- <-. by exists l1.
Qed.

Lemma calls_within_try_except {A} (body : M A) (handler : exn → M A) :
  calls_within P body → (∀ e, calls_within P (handler e)) →
  calls_within P (try_except body handler).
Proof.
  intros Hbody Hhandler st o st' Hrun. unfold try_except in Hrun.
  destruct (body st) as [[a|e|] st1] eqn:Hfirst;
    destruct (Hbody _ _ _ Hfirst) as (l1 & Hl1 & HP1).
  - injection Hrun as <- <-. by exists l1.
  - destruct (Hhandler e _ _ _ Hrun) as (l2 & Hl2 & HP2).
    exists (l1 ++ l2)%list. split; [|by apply Forall_app].
    by rewrite Hl2, Hl1, app_assoc.
  - injection Hrun as <- <-. by exists l1.
Qed.

Lemma calls_within_weaken {A} (Q : GatewayCall → Prop) (m : M A) :
  (∀ c, Q c → P c) → calls_within Q m → calls_within P m.
Proof.
  intros HQP Hm st o st' Hrun.
  destruct (Hm _ _ _ Hrun) as (l & Hl & HQ).
  exists l. split; [done|]. by eapply Forall_impl.
Qed.

End CallsWithin.

Lemma keeps_monitor_fs_blind {X} (obs : State → X) fuel step log_file :
  (∀ st g, obs (set_fs g st) = obs st) →
  keeps obs (_monitor_progress E fuel step log_file).
Proof.
  intros Hobs.
  induction fuel as [|fuel IH]; intros st o st' Hrun; simpl in Hrun.
  - by injection Hrun as <- <-.
  - destruct (poll_log (fs st) log_file).
    + by rewrite (IH _ _ _ Hrun).
    + by rewrite (IH _ _ _ Hrun).
    + by injection Hrun as <- <-.
    + by injection Hrun as <- <-.
Qed.

Lemma run_phase_calls vctx fuel ph ctx :
  calls_within (fun c => c ∈ phase_calls vctx ph ctx)
    (run_phase E vctx fuel ph ctx).
Proof.
  set (P := fun c => c ∈ phase_calls vctx ph ctx).
  assert (∀ A (a : A), calls_within P (ret a)) as Hret.
  { intros. apply calls_within_keeps, keeps_ret. }
  assert (∀ A e, calls_within P (raise (A := A) e)) as Hraise.
  { intros. apply calls_within_keeps, keeps_raise. }
  assert (∀ g, calls_within P (modify (set_status g))) as Hstat.
  { intros. by apply calls_within_keeps, keeps_modify. }
  assert (∀ g, calls_within P (modify (set_fs g))) as Hfs.
  { intros. by apply calls_within_keeps, keeps_modify. }
  unfold run_phase.
  apply calls_within_bind; [apply Hstat|intros _].
  apply calls_within_try_except;
    [|intros e; apply calls_within_bind; [apply Hstat|intros _; apply Hraise]].
  unfold phase_body.
  apply calls_within_bind; [|intros launched; apply calls_within_bind].
  - unfold launch.
    apply calls_within_bind;
      [apply calls_within_keeps, keeps_check_previous|intros _].
    apply calls_within_bind; [apply Hfs|intros _].
    apply calls_within_bind.
    { eapply calls_within_weaken; [|apply gateway_records_its_call].
      intros c ->. unfold P, phase_calls. by left. }
    intros g. apply calls_within_bind;
      [destruct (decide _); [apply Hraise|apply Hret]|intros _].
    apply calls_within_bind; [|intros m; apply Hret].
    eapply calls_within_weaken; [|apply gateway_records_its_call].
    intros c ->. unfold P, phase_calls. right. by left.
  - by apply calls_within_keeps, keeps_monitor_fs_blind.
  - intros _. unfold validate_and_commit.
    apply calls_within_bind;
      [apply calls_within_keeps, keeps_check_output|intros files_ok].
    apply calls_within_bind;
      [destruct files_ok; [apply Hret|apply Hraise]|intros _].
    apply calls_within_bind.
    { unfold _validate_energy_with.
      apply calls_within_try_except; [|intros; apply Hret].
      apply calls_within_bind.
      - eapply calls_within_weaken; [|apply gateway_records_its_call].
        intros c ->. unfold P, phase_calls. right. right. by left.
      - intros r. destruct (decide _); apply Hret. }
    intros energy_ok. apply calls_within_bind;
      [destruct energy_ok; [apply Hret|apply Hraise]|intros _].
    apply calls_within_bind; [apply Hstat|intros _; apply Hret].
Qed.

Lemma run_phase_None_never_commits fuel ph :
  never_commits (run_phase E None fuel ph).
Proof.
  intros ctx st. split.
  - intros result Hret.
    apply (run_phase_None_never_returns E fuel ph ctx st result
             (run_phase E None fuel ph ctx st).2).
    rewrite <- Hret. apply surjective_pairing.
  - destruct (run_phase E None fuel ph ctx st) as [o st'] eqn:Hrun.
    simpl. rewrite (run_phase_status _ _ _ _ _ _ _ _ Hrun).
    destruct o as [r|e|]; [|done..].
    by destruct (run_phase_None_never_returns E fuel ph ctx st r st').
Qed.

(** X2.  None of the four [run_*] methods ever returns, and none ever
    appends to [completed_steps], whatever the engine does: energy
    validation is called with [None] for the context, the gateway raises
    on it, and validation answers [False]. *)
Theorem run_methods_never_commit fuel :
  never_commits (run_minimization E fuel) ∧
  never_commits (run_nvt_equilibration E fuel) ∧
  never_commits (run_npt_equilibration E fuel) ∧
  never_commits (run_production E fuel).
Proof. repeat split; apply run_phase_None_never_commits. Qed.

Lemma reachable_never_completes st :
  reachable E st →
  completed_steps (status st) = [] ∧
  Forall (minimization_call E) (gateway_calls st) ∧
  start_time (status st) = None ∧ end_time (status st) = None.
Proof.
  assert (∀ fuel ph ctx st,
            start_time (status (run_phase E None fuel ph ctx st).2)
              = start_time (status st) ∧
            end_time (status (run_phase E None fuel ph ctx st).2)
              = end_time (status st)) as Htimes.
  { intros fuel ph ctx st0.
    destruct (run_phase E None fuel ph ctx st0) as [o st'] eqn:Hrun. simpl.
    rewrite (run_phase_status _ _ _ _ _ _ _ _ Hrun). by destruct o. }
  assert (∀ fuel ph ctx st previous msg,
            ph_requires ph = Some (previous, msg) →
            completed_steps (status st) = [] →
            gateway_calls (run_phase E None fuel ph ctx st).2
              = gateway_calls st) as Hlater.
  { intros fuel ph ctx st0 previous msg Hreq Hnone.
    apply (run_phase_turned_away E None fuel ph ctx st0 previous msg Hreq).
    rewrite Hnone. apply not_elem_of_nil. }
  induction 1 as [f|st fuel ctx _ (Hc & Hcalls & Hs & He)
                   |st fuel ctx _ (Hc & Hcalls & Hs & He)
                   |st fuel ctx _ (Hc & Hcalls & Hs & He)
                   |st fuel ctx _ (Hc & Hcalls & Hs & He)
                   |st g _ IH].
  - by repeat split.
  - unfold run_minimization. split; [|split].
    + by rewrite (proj2 (run_phase_None_never_commits fuel _ ctx st)).
    + destruct (run_phase_calls None fuel (minimization_phase E) ctx st
                  _ _ (surjective_pairing _)) as (l & Hl & HP).
      rewrite Hl. apply Forall_app. split; [done|].
      eapply Forall_impl; [exact HP|]. intros c Hin. by exists ctx.
    + destruct (Htimes fuel (minimization_phase E) ctx st) as [-> ->].
      by split.
  - unfold run_nvt_equilibration. split; [|split].
    + by rewrite (proj2 (run_phase_None_never_commits fuel _ ctx st)).
    + by rewrite (Hlater fuel (nvt_phase E) ctx st _ _ eq_refl Hc).
    + destruct (Htimes fuel (nvt_phase E) ctx st) as [-> ->]. by split.
  - unfold run_npt_equilibration. split; [|split].
    + by rewrite (proj2 (run_phase_None_never_commits fuel _ ctx st)).
    + by rewrite (Hlater fuel (npt_phase E) ctx st _ _ eq_refl Hc).
    + destruct (Htimes fuel (npt_phase E) ctx st) as [-> ->]. by split.
  - unfold run_production. split; [|split].
    + by rewrite (proj2 (run_phase_None_never_commits fuel _ ctx st)).
    + by rewrite (Hlater fuel (production_phase E) ctx st _ _ eq_refl Hc).
    + destruct (Htimes fuel (production_phase E) ctx st) as [-> ->].
      by split.
  - exact IH.
Qed.

(** X3.  A workflow that starts with a fresh status never gets past the
    minimization: in every state it can reach through its own four
    methods (with anything happening to the files in between),
    [completed_steps] is empty, every call the gateway has seen was made
    by the minimization, [start_time] and [end_time] are still unset,
    and the three later methods are turned away by their check without
    entering the gateway. *)
Theorem fresh_workflow_never_advances st :
  reachable E st →
  completed_steps (status st) = [] ∧
  Forall (minimization_call E) (gateway_calls st) ∧
  start_time (status st) = None ∧ end_time (status st) = None ∧
  ∀ fuel ctx,
    turned_away (run_nvt_equilibration E fuel ctx st) st
      NVT_EQUILIBRATION "必须先完成能量最小化" ∧
    turned_away (run_npt_equilibration E fuel ctx st) st
      NPT_EQUILIBRATION "必须先完成NVT平衡" ∧
    turned_away (run_production E fuel ctx st) st
      PRODUCTION "必须先完成NPT平衡".
Proof.
  intros Hreach.
  destruct (reachable_never_completes st Hreach) as (Hc & Hcalls & Hs & He).
  split; [done|]. split; [done|]. split; [done|]. split; [done|].
  intros fuel ctx.
  assert (∀ step, step ∉ completed_steps (status st)) as Hnot
    by (intros step; rewrite Hc; apply not_elem_of_nil).
  split; [|split].
  - by apply (run_phase_turned_away E None fuel (nvt_phase E) ctx st
                MINIMIZATION _ eq_refl).
  - by apply (run_phase_turned_away E None fuel (npt_phase E) ctx st
                NVT_EQUILIBRATION _ eq_refl).
  - by apply (run_phase_turned_away E None fuel (production_phase E) ctx st
                NPT_EQUILIBRATION _ eq_refl).
Qed.

(** X4.  The verdict of the monitor is in the log it last read: when it
    returns, the last line of the log contains ["Finished mdrun"]; when
    it raises a [SimulationError], the message is the step's failure and
    the last line contains ["Fatal error"] and not ["Finished mdrun"].
    Either way it has changed nothing but the time that passed: the
    status, [ctx.log] and the record of the gateway are as they were. *)
Theorem monitor_verdict_is_in_the_log fuel step log_file st o st' :
  _monitor_progress E fuel step log_file st = (o, st') →
  match o with
  | Ret _ =>
      ∃ content last_line,
        files (fs st') !! log_file = Some content ∧
        last (readlines content) = Some last_line ∧
        contains "Finished mdrun" last_line = true
  | Raise (SimulationError msg) =>
      msg = step_str E step +:+ " 模拟失败" ∧
      ∃ content last_line,
        files (fs st') !! log_file = Some content ∧
        last (readlines content) = Some last_line ∧
        contains "Fatal error" last_line = true ∧
        contains "Finished mdrun" last_line = false
  | _ => True
  end ∧
  status st' = status st ∧ ctx_log st' = ctx_log st ∧
  gateway_calls st' = gateway_calls st.
Proof.
  intros Hrun. split.
  - revert st Hrun.
    induction fuel as [|fuel IH]; intros st Hrun; simpl in Hrun.
    + by injection Hrun as <- <-.
    + unfold poll_log in Hrun.
      destruct (files (fs st) !! log_file) as [content|] eqn:Hlog;
        [|by eapply IH].
      destruct (last (readlines content)) as [last_line|] eqn:Hlast;
        [|by eapply IH].
      destruct (contains "Finished mdrun" last_line) eqn:Hdone.
      { injection Hrun as <- <-. by exists content, last_line. }
      destruct (contains "Fatal error" last_line) eqn:Hfatal;
        [|by eapply IH].
      injection Hrun as <- <-. split; [done|].
      by exists content, last_line.
  - split; [|split];
      by apply (keeps_monitor_fs_blind _ fuel step log_file) with (o := o).
Qed.

Lemma monitor_stalls step log_file st :
  (∀ n f, files (sleep E n f) !! log_file = files f !! log_file) →
  poll_log (fs st) log_file = NoLogYet ∨ poll_log (fs st) log_file = Pending →
  ∀ fuel, (_monitor_progress E fuel step log_file st).1 = Hang.
Proof.
  intros Hidle Hpoll fuel. revert st Hpoll.
  assert (∀ n f, poll_log (sleep E n f) log_file = poll_log f log_file)
    as Hsame by (intros; unfold poll_log; by rewrite Hidle).
  induction fuel as [|fuel IH]; intros st Hpoll; [done|].
  simpl. destruct Hpoll as [Hpoll|Hpoll]; rewrite Hpoll; apply IH; simpl;
    rewrite Hsame; auto.
Qed.

(** X5.  Only the last line of the log counts, and nothing bounds the
    wait: if the log is a text of 7-bit characters whose last line
    carries neither marker (whatever the lines before it say, and also
    when the log is empty), and nothing changes the log while the monitor
    sleeps, the monitor never ends, however long it is left to run. *)
Theorem stalled_log_hangs_the_monitor step log_file st content :
  (∀ n f, files (sleep E n f) !! log_file = files f !! log_file) →
  files (fs st) !! log_file = Some content →
  ascii_text content = true →
  (∀ last_line, last (readlines content) = Some last_line →
     contains "Finished mdrun" last_line = false ∧
     contains "Fatal error" last_line = false) →
  ∀ fuel, (_monitor_progress E fuel step log_file st).1 = Hang.
Proof.
  intros Hidle Hlog _ Hlast. apply monitor_stalls; [done|]. right.
  unfold poll_log. rewrite Hlog.
  destruct (last (readlines content)) as [last_line|]; [|done].
  by destruct (Hlast last_line eq_refl) as [-> ->].
Qed.

(** *** What an attempt writes *)

Section KeepsOnLines.

Context {X : Type} (obs : State → X).
Context (vctx : option Context) (ph : Phase) (ctx : Context).

Hypothesis Hcall : ∀ st c, obs (record_call c st) = obs st.
Hypothesis Hspawn : ∀ st words input cwd log,
  words ∈ phase_command_lines vctx ph ctx →
  obs {| fs := (spawn E words input cwd (fs st)).2; status := status st;
         ctx_log := log; gateway_calls := gateway_calls st |} = obs st.
Hypothesis Hsleep : ∀ st n, obs (set_fs (sleep E n) st) = obs st.
Hypothesis Hstatus : status_blind obs.
Hypothesis Hmdp :
  ∀ st, obs (set_fs (write_file (ph_mdp ph) (ph_mdp_text ph)) st) = obs st.

Lemma keeps_issued octx cmd args input :
  (∀ c, octx = Some c →
        full_cmd c cmd args ∈ phase_command_lines vctx ph ctx) →
  keeps obs (run_gromacs_command E octx cmd args input).
Proof.
  intros Hin st o st' Hrun. unfold run_gromacs_command in Hrun.
  destruct octx as [c|]; [|injection Hrun as <- <-; apply Hcall].
  pose proof (Hspawn (record_call (mkCall (Some c) cmd args input) st)
                (full_cmd c cmd args) input (working_dir c)) as Hs.
  simpl in Hrun, Hs.
  destruct (spawn E _ _ _ _) as [[out err rc|msg] f'];
    injection Hrun as <- <-; simpl in Hs.
  - rewrite <- (Hcall st (mkCall (Some c) cmd args input)). by apply Hs, Hin.
  - rewrite <- (Hcall st (mkCall (Some c) cmd args input)).
    by apply (Hs (ctx_log st)), Hin.
Qed.

Lemma keeps_sleeping fuel step log_file :
  keeps obs (_monitor_progress E fuel step log_file).
Proof.
  induction fuel as [|fuel IH]; intros st o st' Hrun; simpl in Hrun.
  - by injection Hrun as <- <-.
  - destruct (poll_log (fs st) log_file).
    + rewrite (IH _ _ _ Hrun). apply Hsleep.
    + rewrite (IH _ _ _ Hrun). apply Hsleep.
    + by injection Hrun as <- <-.
    + by injection Hrun as <- <-.
Qed.

Lemma keeps_energy :
  keeps obs (_validate_energy_with E vctx (ph_step ph) (ph_energy_file ph)).
Proof.
  apply keeps_try_except; [|intros; apply keeps_ret].
  apply keeps_bind.
  - apply keeps_issued. intros c Hc. unfold phase_command_lines.
    rewrite Hc. right. right. by left.
  - intros r. destruct (decide _); apply keeps_ret.
Qed.

Lemma keeps_attempt fuel : keeps obs (run_phase E vctx fuel ph ctx).
Proof.
  unfold run_phase.
  apply keeps_bind; [apply keeps_modify; intros; apply Hstatus|intros _].
  apply keeps_try_except.
  - unfold phase_body. apply keeps_bind; [|intros launched].
    { unfold launch.
      apply keeps_bind; [apply keeps_check_previous|intros _].
      apply keeps_bind; [by apply keeps_modify|intros _].
      apply keeps_bind;
        [apply keeps_issued; intros c [= <-]; by left|intros grompp_result].
      apply keeps_bind;
        [destruct (decide _); [apply keeps_raise|apply keeps_ret]|intros _].
      apply keeps_bind;
        [apply keeps_issued; intros c [= <-]; right; by left
        |intros mdrun_result].
      apply keeps_ret. }
    apply keeps_bind; [apply keeps_sleeping|intros _].
    unfold validate_and_commit.
    apply keeps_bind; [apply keeps_check_output|intros files_ok].
    apply keeps_bind;
      [destruct files_ok; [apply keeps_ret|apply keeps_raise]|intros _].
    apply keeps_bind; [apply keeps_energy|intros energy_ok].
    apply keeps_bind;
      [destruct energy_ok; [apply keeps_ret|apply keeps_raise]|intros _].
    apply keeps_bind; [apply keeps_modify; intros; apply Hstatus|intros _].
    apply keeps_ret.
  - intros e.
    apply keeps_bind; [apply keeps_modify; intros; apply Hstatus|intros _].
    apply keeps_raise.
Qed.

End KeepsOnLines.

(** X6.  An attempt, however it ends, writes no file of its own but the
    step's [.mdp] file (and the lines its logger appends under [logs/]),
    and creates no directory: a path that the commands the attempt runs
    and the sleeps of its monitor leave alone is afterwards as it was, a
    checkpoint of this or of any other step among them. *)
Theorem attempt_writes_only_its_mdp vctx fuel ph ctx st o st' :
  run_phase E vctx fuel ph ctx st = (o, st') →
  (run_keeps_dirs E (phase_command_lines vctx ph ctx) →
     dirs (fs st') = dirs (fs st)) ∧
  (∀ p, p ≠ ph_mdp ph → outside_logs p = true →
        run_keeps_file E (phase_command_lines vctx ph ctx) p →
        files (fs st') !! p = files (fs st) !! p).
Proof.
  intros Hrun. split.
  - intros [Hspawn Hsleep].
    apply (keeps_attempt (fun st => dirs (fs st)) vctx ph ctx)
      with (fuel := fuel) (o := o); try done.
    + intros st0 words input cwd log Hin. by apply Hspawn.
    + intros st0 n. apply Hsleep.
  - intros p Hp _ [Hspawn Hsleep].
    apply (keeps_attempt (fun st => files (fs st) !! p) vctx ph ctx)
      with (fuel := fuel) (o := o); try done.
    + intros st0 words input cwd log Hin. by apply Hspawn.
    + intros st0 n. apply Hsleep.
    + intros st0. simpl. by apply lookup_insert_ne.
Qed.

(** X7.  An attempt of a step sets [current_step] to that step (also
    when it is turned away or never ends), leaves [start_time] and
    [end_time] alone, and never changes what [errors] holds for another
    step. *)
Theorem attempt_changes_only_its_own_entry vctx fuel ph ctx st o st' :
  run_phase E vctx fuel ph ctx st = (o, st') →
  current_step (status st') = Some (ph_step ph) ∧
  start_time (status st') = start_time (status st) ∧
  end_time (status st') = end_time (status st) ∧
  ∀ step, step ≠ ph_step ph →
    errors (status st') !! step = errors (status st) !! step.
Proof.
  intros Hrun. rewrite (run_phase_status _ _ _ _ _ _ _ _ Hrun).
  destruct o as [r|e|]; simpl; repeat split; try done.
  intros step Hne. by apply lookup_insert_ne.
Qed.

(** The state in which a run calls [grompp]: [current_step] is set and
    the [.mdp] file is written. *)
Lemma launch_unfold ph ctx st :
  (∀ previous msg, ph_requires ph = Some (previous, msg) →
     previous ∈ completed_steps (status st)) →
  launch E ph ctx st
  = match run_gromacs_command E (Some ctx) "grompp" (ph_grompp_args ph) None
            (set_fs (write_file (ph_mdp ph) (ph_mdp_text ph)) st) with
    | (Ret g, st1) =>
        if decide (return_code g ≠ 0)
        then (Raise (SimulationError ("生成TPR文件失败: " +:+ stderr g)), st1)
        else match run_gromacs_command E (Some ctx) "mdrun"
                     ["-v"; "-deffnm"; ph_deffnm ph] None st1 with
             | (Ret m, st2) => (Ret (g, m), st2)
             | (Raise e, st2) => (Raise e, st2)
             | (Hang, st2) => (Hang, st2)
             end
    | (Raise e, st1) => (Raise e, st1)
    | (Hang, st1) => (Hang, st1)
    end.
Proof.
  intros Hprev. unfold launch, bind, check_previous, modify.
  destruct (ph_requires ph) as [[previous msg]|] eqn:Hreq.
  - rewrite decide_True by by eapply Hprev.
    destruct (run_gromacs_command _ _ _ _ _ _) as [[g|e|] st1]; [|done..].
    destruct (decide _); [done|]. cbv beta iota delta [ret].
    by destruct (run_gromacs_command _ _ _ _ _ _) as [[m|e|] st2].
  - destruct (run_gromacs_command _ _ _ _ _ _) as [[g|e|] st1]; [|done..].
    destruct (decide _); [done|]. cbv beta iota delta [ret].
    by destruct (run_gromacs_command _ _ _ _ _ _) as [[m|e|] st2].
Qed.

(** X8.  When [grompp] does not return 0 (the [-1] of a failed spawn
    included), the attempt raises with the text of [stderr] after the
    fixed prefix, records it under the step, and [mdrun] is never
    launched: the gateway was entered once. *)
Theorem failed_grompp_stops_the_phase vctx fuel ph ctx st g st1 :
  (∀ previous msg, ph_requires ph = Some (previous, msg) →
     previous ∈ completed_steps (status st)) →
  run_gromacs_command E (Some ctx) "grompp" (ph_grompp_args ph) None
    (set_fs (write_file (ph_mdp ph) (ph_mdp_text ph))
       (set_status (set_current_step (ph_step ph)) st)) = (Ret g, st1) →
  return_code g ≠ 0 →
  ∃ st',
    run_phase E vctx fuel ph ctx st
      = (Raise (SimulationError ("生成TPR文件失败: " +:+ stderr g)), st') ∧
    errors (status st') !! ph_step ph
      = Some ("生成TPR文件失败: " +:+ stderr g) ∧
    completed_steps (status st') = completed_steps (status st) ∧
    gateway_calls st'
      = (gateway_calls st ++
         [mkCall (Some ctx) "grompp" (ph_grompp_args ph) None])%list.
Proof.
  intros Hprev Hgrompp Hrc. eexists.
  rewrite run_phase_unfold, phase_body_unfold, launch_unfold by done.
  rewrite Hgrompp, decide_True by done.
  split; [reflexivity|]. simpl. split; [apply lookup_insert_eq|].
  rewrite (keeps_gateway E status (env_blind_status E) _ _ _ _ _ _ _ Hgrompp).
  rewrite (gateway_calls_after _ _ _ _ _ _ _ Hgrompp). by split.
Qed.

(** X9.  The return code of [mdrun] is never looked at, and a failed
    spawn of [mdrun] raises nothing: once [grompp] returned 0 the
    attempt goes on to the monitor whatever [mdrun] answered.  So when
    no log was written and nothing writes one later, the attempt waits
    for ever, with no error recorded. *)
Theorem unchecked_mdrun_leaves_the_phase_waiting vctx ph ctx st g st1 m st2 :
  (∀ previous msg, ph_requires ph = Some (previous, msg) →
     previous ∈ completed_steps (status st)) →
  run_gromacs_command E (Some ctx) "grompp" (ph_grompp_args ph) None
    (set_fs (write_file (ph_mdp ph) (ph_mdp_text ph))
       (set_status (set_current_step (ph_step ph)) st)) = (Ret g, st1) →
  return_code g = 0 →
  run_gromacs_command E (Some ctx) "mdrun" ["-v"; "-deffnm"; ph_deffnm ph]
    None st1 = (Ret m, st2) →
  launch E ph ctx (set_status (set_current_step (ph_step ph)) st)
    = (Ret (g, m), st2) ∧
  ((∀ n f, files (sleep E n f) !! ph_log ph = files f !! ph_log ph) →
   files (fs st2) !! ph_log ph = None →
   ∀ fuel,
     (run_phase E vctx fuel ph ctx st).1 = Hang ∧
     errors (status (run_phase E vctx fuel ph ctx st).2) = errors (status st)).
Proof.
  intros Hprev Hgrompp Hrc Hmdrun.
  assert (launch E ph ctx (set_status (set_current_step (ph_step ph)) st)
          = (Ret (g, m), st2)) as Hlaunch.
  { rewrite launch_unfold by done.
    rewrite Hgrompp, decide_False by (by intros ?). by rewrite Hmdrun. }
  split; [done|]. intros Hidle Hlog fuel.
  destruct (run_phase E vctx fuel ph ctx st) as [o st'] eqn:Hrun. simpl.
  pose proof (run_phase_status _ _ _ _ _ _ _ _ Hrun) as Hstatus.
  rewrite run_phase_unfold, phase_body_unfold, Hlaunch in Hrun.
  assert (poll_log (fs st2) (ph_log ph) = NoLogYet) as Hpoll
    by (unfold poll_log; by rewrite Hlog).
  pose proof (monitor_stalls (ph_step ph) (ph_log ph) st2 Hidle
                (or_introl Hpoll) fuel) as Hhang.
  destruct (_monitor_progress E fuel (ph_step ph) (ph_log ph) st2)
    as [o2 st3] eqn:Hmon.
  simpl in Hhang. subst o2.
  injection Hrun as <- <-. by rewrite Hstatus.
Qed.

End Further.


Lemma fresh_workflow_never_advances_witness :
  completed_steps
    (status (run_nvt_equilibration good_env 1 default_ctx
               (run_minimization good_env 1 default_ctx
                  (initial_state empty_fs)).2).2) = [].
Proof.
  refine (proj1 (fresh_workflow_never_advances good_env
                   (run_nvt_equilibration good_env 1 default_ctx
                      (run_minimization good_env 1 default_ctx
                         (initial_state empty_fs)).2).2 _)).
  apply reach_nvt, reach_minimization, reach_fresh.
Defined.

Lemma monitor_verdict_is_in_the_log_witness :
  ∃ content last_line,
    files (write_file "em.log" "Finished mdrun on rank 0" empty_fs) !! "em.log"
      = Some content ∧
    last (readlines content) = Some last_line ∧
    contains "Finished mdrun" last_line = true.
Proof.
  apply (proj1 (monitor_verdict_is_in_the_log good_env 1 MINIMIZATION
                  "em.log"
                  (initial_state
                     (write_file "em.log" "Finished mdrun on rank 0" empty_fs))
                  (Ret tt) _ eq_refl)).
Defined.

Lemma stalled_log_hangs_the_monitor_witness :
  (_monitor_progress good_env 1000 PRODUCTION "md.log"
     (initial_state (write_file "md.log" crashed_log empty_fs))).1 = Hang.
Proof.
  apply (stalled_log_hangs_the_monitor good_env PRODUCTION "md.log"
           (initial_state (write_file "md.log" crashed_log empty_fs))
           crashed_log).
  - intros n f. reflexivity.
  - vm_compute. reflexivity.
  - vm_compute. reflexivity.
  - intros last_line Hlast. vm_compute in Hlast. injection Hlast as <-.
    split; vm_compute; reflexivity.
Defined.

Lemma attempt_writes_only_its_mdp_witness :
  let r := run_minimization good_env 1 default_ctx
             (initial_state partial_checkpoint_fs) in
  files (fs r.2) !! "em.gro" = Some "data" ∧
  files (fs r.2) !! "checkpoints/minimization/em.gro" = Some "checkpointed".
Proof.
  intros r. split; [vm_compute; reflexivity|].
  etrans.
  - apply (proj2 (attempt_writes_only_its_mdp good_env None 1
                    (minimization_phase good_env) default_ctx
                    (initial_state partial_checkpoint_fs) _ _
                    (surjective_pairing _))).
    + discriminate.
    + vm_compute. reflexivity.
    + split; [|intros; reflexivity].
      intros words input cwd f Hin. simpl in Hin.
      repeat (apply elem_of_cons in Hin as [->|Hin];
              [simpl; by rewrite ?lookup_insert_ne by discriminate|]).
      by apply not_elem_of_nil in Hin.
  - vm_compute. reflexivity.
Defined.

Lemma attempt_changes_only_its_own_entry_witness :
  current_step
    (status (run_nvt_equilibration good_env 1 default_ctx
               (initial_state empty_fs)).2) = Some NVT_EQUILIBRATION.
Proof.
  apply (attempt_changes_only_its_own_entry good_env None 1
           (nvt_phase good_env) default_ctx (initial_state empty_fs) _ _
           (surjective_pairing _)).
Defined.

Lemma failed_grompp_stops_the_phase_witness :
  ∃ st',
    run_minimization grompp_fails_env 1 default_ctx (initial_state empty_fs)
      = (Raise (SimulationError
                  "生成TPR文件失败: Fatal error: no such file"), st') ∧
    map call_cmd (gateway_calls st') = ["grompp"].
Proof.
  edestruct (failed_grompp_stops_the_phase grompp_fails_env None 1
               (minimization_phase grompp_fails_env) default_ctx
               (initial_state empty_fs))
    as (st' & Hrun & _ & _ & Hcalls).
  - intros previous msg [=].
  - vm_compute. reflexivity.
  - vm_compute. discriminate.
  - exists st'. split; [exact Hrun|]. by rewrite Hcalls.
Defined.

Lemma unchecked_mdrun_leaves_the_phase_waiting_witness :
  (run_minimization no_mdrun_env 100 default_ctx (initial_state empty_fs)).1
  = Hang.
Proof.
  edestruct (unchecked_mdrun_leaves_the_phase_waiting no_mdrun_env None
               (minimization_phase no_mdrun_env) default_ctx
               (initial_state empty_fs)) as [_ Hwait].
  - intros previous msg [=].
  - vm_compute. reflexivity.
  - reflexivity.
  - vm_compute. reflexivity.
  - apply (Hwait (fun _ _ => eq_refl)); vm_compute; reflexivity.
Defined.

(** ** Further properties of the checkpoint store *)

Section FurtherCheckpoints.

Implicit Types (f : FileSystem) (step : SimulationStep) (l : list string).

Lemma write_file_same p content f :
  files f !! p = Some content → write_file p content f = f.
Proof.
  intros Hp. apply FileSystem_eq; [|done]. simpl. by apply insert_id.
Qed.

Lemma present_prefix_subset step l f g :
  g ∈ present_prefix step l f → g ∈ l.
Proof.
  induction l as [|file rest IH]; simpl; [done|].
  destruct (file_exists f _); [|by intros ?%not_elem_of_nil].
  intros [->|Hin]%elem_of_cons; [by left|]. right. by apply IH.
Qed.

(** The directory of a checkpoint tells its step. *)
Lemma checkpoint_path_step step step' g h :
  checkpoint_path step g = checkpoint_path step' h → step = step'.
Proof. destruct step, step'; simpl; intros Heq; done || discriminate Heq. Qed.

(** X10.  On a working directory of the usual layout [backup_checkpoint]
    returns without a complaint whatever is missing: it creates the
    directory, copies the files of the step that are there, and silently
    skips the ones that are not, so that for a missing output the
    checkpoint keeps whatever it held before (an older copy, or nothing).
    Nothing outside the checkpoint of the step changes. *)
Theorem backup_skips_what_is_missing step f :
  plain_layout step f = true →
  ∃ f1,
    backup_checkpoint step f = Some f1 ∧
    dirs f1 = {[ "checkpoints" ]} ∪ ({[ checkpoint_dir step ]} ∪ dirs f) ∧
    (∀ g, g ∈ checkpoint_files step →
       files f1 !! checkpoint_path step g
       = match files f !! g with
         | Some content => Some content
         | None => files f !! checkpoint_path step g
         end) ∧
    (∀ p, (∀ g, g ∈ checkpoint_files step → p ≠ checkpoint_path step g) →
       files f1 !! p = files f !! p).
Proof.
  intros _.
  destruct (backup_files_spec step _ (checkpoint_files_fresh step)
              (mkdir_checkpoint (checkpoint_dir step) f))
    as (f1 & Hbackup & Hdirs & Hin & Hout).
  by exists f1.
Qed.

Lemma backup_files_fixpoint step l f :
  (∀ g content, g ∈ l → files f !! g = Some content →
     files f !! checkpoint_path step g = Some content) →
  backup_files step l f = Some f.
Proof.
  induction l as [|file rest IH]; intros Hsaved; simpl; [done|].
  assert (backup_files step rest f = Some f) as Hrest.
  { apply IH. intros g content Hg. apply Hsaved. by right. }
  destruct (file_exists f file) eqn:Hpresent; [|done].
  apply file_exists_true in Hpresent as [content Hc].
  unfold copy2. rewrite Hc.
  rewrite write_file_same; [done|]. apply Hsaved; [by left|done].
Qed.

(** X11.  Backing up twice is backing up once: on the store a backup
    leaves, a second backup of the same step returns and changes
    nothing. *)
Theorem backup_checkpoint_idempotent step f f1 :
  backup_checkpoint step f = Some f1 →
  backup_checkpoint step f1 = Some f1.
Proof.
  intros Hbackup.
  destruct (backup_files_spec step _ (checkpoint_files_fresh step)
              (mkdir_checkpoint (checkpoint_dir step) f))
    as (f1' & Hbackup' & Hdirs & Hin & Hout).
  unfold backup_checkpoint in Hbackup.
  assert (f1' = f1) as -> by congruence.
  simpl in Hdirs, Hin, Hout.
  assert (mkdir_checkpoint (checkpoint_dir step) f1 = f1) as Hdir.
  { apply FileSystem_eq; [done|]. simpl. rewrite Hdirs.
    apply set_eq. intros x. rewrite !elem_of_union. tauto. }
  unfold backup_checkpoint. rewrite Hdir.
  apply backup_files_fixpoint. intros g content Hg Hc.
  rewrite (Hin g Hg).
  rewrite Hout in Hc.
  - by rewrite Hc.
  - intros h _ Heq. by apply (checkpoint_files_fresh step g h Hg).
Qed.

(** X12.  [restore_checkpoint] changes only the working copies of its own
    step's files: it creates no directory, leaves every other path as it
    was, and never alters a checkpoint, of this or of any other step.
    When it answers [True], every file of the step has in the working
    directory the content the checkpoint holds. *)
Theorem restore_touches_only_its_own_files step f :
  dirs (restore_checkpoint step f).2 = dirs f ∧
  (∀ p, p ∉ checkpoint_files step →
     files (restore_checkpoint step f).2 !! p = files f !! p) ∧
  (∀ step' h,
     files (restore_checkpoint step f).2 !! checkpoint_path step' h
     = files f !! checkpoint_path step' h) ∧
  ((restore_checkpoint step f).1 = true →
   ∀ g, g ∈ checkpoint_files step →
     is_Some (files f !! checkpoint_path step g) ∧
     files (restore_checkpoint step f).2 !! g
     = files f !! checkpoint_path step g).
Proof.
  unfold restore_checkpoint.
  destruct (dir_exists f (checkpoint_dir step)); [|by repeat split].
  destruct (restore_files_spec step _ f (checkpoint_files_fresh step) f)
    as (f' & Hrun & Hdirs & Hfiles); [done|].
  rewrite Hrun. simpl. split; [done|]. split; [|split].
  - intros p Hp. rewrite Hfiles, decide_False; [done|].
    intros Hin. by apply Hp, (present_prefix_subset step _ f).
  - intros step' h. rewrite Hfiles, decide_False; [done|].
    intros Hin%present_prefix_subset.
    by apply (checkpoint_path_fresh step step' _ h Hin).
  - intros Hall%bool_decide_eq_true g Hg.
    rewrite Hfiles, Hall, decide_True by done. split; [|done].
    assert (∀ l, present_prefix step l f = l → ∀ x, x ∈ l →
              is_Some (files f !! checkpoint_path step x)) as Hpresent.
    { induction l as [|x0 l IH]; simpl; [by intros _ x ?%not_elem_of_nil|].
      destruct (file_exists f (checkpoint_path step x0)) eqn:Hx0; [|done].
      intros [= Hl] x [->|Hx]%elem_of_cons; [|by apply IH].
      by apply file_exists_true. }
    by apply (Hpresent _ Hall).
Qed.

(** X13.  Restoring twice is restoring once: on the store a restore
    leaves, a second restore of the same step gives the same answer and
    changes nothing (also when the answer is [False] after a partial
    copy). *)
Theorem restore_checkpoint_idempotent step f answer f' :
  restore_checkpoint step f = (answer, f') →
  restore_checkpoint step f' = (answer, f').
Proof.
  unfold restore_checkpoint.
  destruct (dir_exists f (checkpoint_dir step)) eqn:Hdir.
  - destruct (restore_files_spec step _ f (checkpoint_files_fresh step) f)
      as (f1 & Hrun & Hdirs & Hfiles); [done|].
    rewrite Hrun. intros [= <- <-].
    assert (dir_exists f1 (checkpoint_dir step) = true) as ->
      by (unfold dir_exists in *; by rewrite Hdirs).
    destruct (restore_files_spec step _ f (checkpoint_files_fresh step) f1)
      as (f2 & Hrun2 & Hdirs2 & Hfiles2).
    { intros h. rewrite Hfiles, decide_False; [done|].
      intros Hin%present_prefix_subset.
      by apply (checkpoint_path_fresh step step _ h Hin). }
    rewrite Hrun2. f_equal. apply FileSystem_eq; [|done].
    apply map_eq. intros p. rewrite Hfiles2, Hfiles.
    by destruct (decide _).
  - intros [= <- <-]. by rewrite Hdir.
Qed.

(** X14.  The checkpoints of different steps do not interfere: a backup
    of one step leaves every file in the checkpoint of any other step as
    it was. *)
Theorem backup_leaves_other_checkpoints step step' f f1 :
  step ≠ step' →
  backup_checkpoint step f = Some f1 →
  ∀ h, files f1 !! checkpoint_path step' h
       = files f !! checkpoint_path step' h.
Proof.
  intros Hne Hbackup h.
  destruct (backup_files_spec step _ (checkpoint_files_fresh step)
              (mkdir_checkpoint (checkpoint_dir step) f))
    as (f1' & Hbackup' & _ & _ & Hout).
  unfold backup_checkpoint in Hbackup.
  assert (f1' = f1) as -> by congruence.
  rewrite Hout; [done|].
  intros g _ Heq. by apply Hne, eq_sym, (checkpoint_path_step _ _ _ _ Heq).
Qed.

End FurtherCheckpoints.

Lemma backup_skips_what_is_missing_witness :
  ∃ f1, backup_checkpoint MINIMIZATION stale_checkpoint_fs = Some f1 ∧
        files f1 !! "checkpoints/minimization/em.gro" = Some "new coordinates" ∧
        files f1 !! "checkpoints/minimization/em.log" = Some "old log" ∧
        files f1 !! "checkpoints/minimization/em.edr" = None.
Proof.
  destruct (backup_skips_what_is_missing MINIMIZATION stale_checkpoint_fs)
    as (f1 & Hbackup & _ & Hin & _).
  { vm_compute. reflexivity. }
  exists f1. split; [done|]. split; [|split].
  - etrans; [apply (Hin "em.gro"); simpl; by left|done].
  - etrans; [apply (Hin "em.log"); simpl; right; right; by left|done].
  - etrans; [apply (Hin "em.edr"); simpl; right; by left|done].
Defined.

Lemma backup_checkpoint_idempotent_witness :
  ∃ f1, backup_checkpoint MINIMIZATION minimized_fs = Some f1 ∧
        backup_checkpoint MINIMIZATION f1 = Some f1.
Proof.
  destruct (backup_checkpoint MINIMIZATION minimized_fs) as [f1|] eqn:Hbackup;
    [|vm_compute in Hbackup; discriminate Hbackup].
  exists f1. split; [done|].
  by apply (backup_checkpoint_idempotent MINIMIZATION minimized_fs).
Defined.

Lemma restore_checkpoint_idempotent_witness :
  restore_checkpoint MINIMIZATION
    (restore_checkpoint MINIMIZATION partial_checkpoint_fs).2
  = (false, (restore_checkpoint MINIMIZATION partial_checkpoint_fs).2).
Proof.
  apply (restore_checkpoint_idempotent MINIMIZATION partial_checkpoint_fs).
  vm_compute. reflexivity.
Defined.

Lemma backup_leaves_other_checkpoints_witness :
  ∃ f1, backup_checkpoint NVT_EQUILIBRATION partial_checkpoint_fs = Some f1 ∧
        files f1 !! "checkpoints/minimization/em.gro" = Some "checkpointed".
Proof.
  destruct (backup_checkpoint NVT_EQUILIBRATION partial_checkpoint_fs)
    as [f1|] eqn:Hbackup; [|vm_compute in Hbackup; discriminate Hbackup].
  exists f1. split; [done|].
  etrans.
  - apply (backup_leaves_other_checkpoints NVT_EQUILIBRATION MINIMIZATION
             partial_checkpoint_fs f1 ltac:(discriminate) Hbackup "em.gro").
  - reflexivity.
Defined.

(** ** Properties of the metadata registry *)

Module RegistryFacts.

Import Registry.

Section WithParams.

Context {Params : Type}.

Implicit Types (r : Store Params) (m : WorkflowMetadata Params)
  (d : MetadataDict Params) (ps : option Params).

Lemma or_else_not_empty x default : default ≠ "" → or_else x default ≠ "".
Proof. intros Hd. unfold or_else. destruct x as [s|]; [|done]. by case_decide. Qed.

Lemma or_else_Some s default : s ≠ "" → or_else (Some s) default = s.
Proof. intros Hs. unfold or_else. by rewrite decide_False. Qed.

Lemma from_dict_to_dict now m :
  created_at m ≠ "" → updated_at m ≠ "" → from_dict now (to_dict m) = m.
Proof.
  intros Hc Hu. destruct m as [id nm desc created updated st ps].
  simpl in *. unfold from_dict, new_metadata. simpl.
  by rewrite !decide_False by done.
Qed.

Lemma new_metadata_stamped now id nm desc created updated st ps :
  now ≠ "" →
  created_at (new_metadata now id nm desc created updated st ps) ≠ "" ∧
  updated_at (new_metadata now id nm desc created updated st ps) ≠ "".
Proof.
  intros Hnow. simpl. split; repeat apply or_else_not_empty; done.
Qed.

(** X15.  A metadata object survives being written and read back: for
    every object the constructor builds (the clock never reads as the
    empty string), [from_dict] of its [to_dict] is the object itself,
    whatever the clock says when it is read. *)
Theorem metadata_round_trip now now' id nm desc created updated st ps :
  now ≠ "" →
  from_dict now'
    (to_dict (new_metadata now id nm desc created updated st ps))
  = new_metadata now id nm desc created updated st ps.
Proof.
  intros Hnow.
  destruct (new_metadata_stamped now id nm desc created updated st ps Hnow).
  by apply from_dict_to_dict.
Qed.

(** X16.  A workflow that was just created can be read back: it carries
    the given name, description and parameters, a fresh status, and the
    creation time in both time stamps; its directory exists; and no
    other workflow is affected. *)
Theorem create_then_get now now' id nm desc ps r :
  now ≠ "" →
  (create_workflow now id nm desc ps r).1 = id ∧
  get_workflow now' id (create_workflow now id nm desc ps r).2
  = Some {| workflow_id := id; name := nm; description := desc;
            created_at := now; updated_at := now;
            status := new_status; params := ps |} ∧
  get_workflow_directory id (create_workflow now id nm desc ps r).2
  = Some id ∧
  ∀ id', id' ≠ id →
    get_workflow now' id' (create_workflow now id nm desc ps r).2
    = get_workflow now' id' r.
Proof.
  intros Hnow. split; [done|]. split; [|split].
  - unfold get_workflow, create_workflow. simpl. rewrite lookup_insert_eq.
    f_equal. unfold from_dict, new_metadata. simpl.
    by rewrite !decide_False by done.
  - unfold get_workflow_directory, create_workflow. simpl.
    rewrite decide_True; [done|].
    apply elem_of_union_l. by apply elem_of_singleton.
  - intros id' Hne. unfold get_workflow, create_workflow. simpl.
    by rewrite lookup_insert_ne.
Qed.

(** X17.  [update_workflow] on an identifier that has no readable file
    answers [False] and changes nothing.  On a workflow that is there
    (in a file named after it) it answers [True], and reading the
    workflow back gives: the new name and description where they were
    given and not empty, the old ones otherwise (so neither can be
    cleared); the given status and parameters, or the old ones; the same
    identifier and creation time; and the time of the update.  No other
    workflow is affected. *)
Theorem update_workflow_spec now now' now'' id nm desc st ps r :
  (get_workflow now id r = None →
     update_workflow now now' id nm desc st ps r = (false, r)) ∧
  (∀ m, get_workflow now id r = Some m → workflow_id m = id →
     now ≠ "" → now' ≠ "" →
     (update_workflow now now' id nm desc st ps r).1 = true ∧
     get_workflow now'' id (update_workflow now now' id nm desc st ps r).2
     = Some {| workflow_id := id;
               name := match nm with
                       | Some s => if decide (s = "") then name m else s
                       | None => name m
                       end;
               description := match desc with
                              | Some s =>
                                  if decide (s = "") then description m
                                  else Some s
                              | None => description m
                              end;
               created_at := created_at m;
               updated_at := now';
               status := match st with Some s => s | None => status m end;
               params := match ps with
                         | Some p => Some p
                         | None => params m
                         end |} ∧
     ∀ id', id' ≠ id →
       get_workflow now'' id'
         (update_workflow now now' id nm desc st ps r).2
       = get_workflow now'' id' r).
Proof.
  split.
  - intros Hnone. unfold update_workflow. by rewrite Hnone.
  - intros m Hget Hid Hnow Hnow'. unfold update_workflow. rewrite Hget.
    assert (created_at m ≠ "") as Hcreated.
    { unfold get_workflow in Hget.
      destruct (documents r !! id) as [[d|]|]; [|done..].
      injection Hget as <-. simpl. by apply or_else_not_empty. }
    simpl. split; [done|]. split.
    + unfold get_workflow, _save_metadata. simpl.
      rewrite Hid, lookup_insert_eq. f_equal.
      unfold from_dict, new_metadata. simpl.
      rewrite !decide_False by done. f_equal.
      * destruct nm as [s|]; simpl; [|done]. by destruct (decide _).
      * destruct desc as [s|]; simpl; [|done]. by destruct (decide _).
    + intros id' Hne. unfold get_workflow, _save_metadata. simpl.
      rewrite Hid. by rewrite lookup_insert_ne.
Qed.

(** X18.  The three operations keep the registry consistent: if every
    readable file carries the identifier it is named after, it is still
    so after a creation, an update or a deletion. *)
Theorem registry_stays_consistent now now' id nm desc desc' nm' st ps r :
  consistent r →
  consistent (create_workflow now id nm desc ps r).2 ∧
  consistent (update_workflow now now' id nm' desc' st ps r).2 ∧
  consistent (delete_workflow id r).2.
Proof.
  intros Hr. split; [|split].
  - intros id' d. unfold create_workflow. simpl.
    destruct (decide (id = id')) as [->|Hne].
    + rewrite lookup_insert_eq. by intros [= <-].
    + rewrite lookup_insert_ne by done. apply Hr.
  - unfold update_workflow, get_workflow.
    destruct (documents r !! id) as [[d0|]|] eqn:Hdoc; [|done..].
    pose proof (Hr id d0 Hdoc) as Hid.
    intros id' d. simpl. rewrite Hid.
    destruct (decide (id = id')) as [->|Hne].
    + rewrite lookup_insert_eq. by intros [= <-].
    + rewrite lookup_insert_ne by done. apply Hr.
  - intros id' d. unfold delete_workflow. simpl.
    destruct (decide (id = id')) as [->|Hne].
    + by rewrite lookup_delete_eq.
    + rewrite lookup_delete_ne by done. apply Hr.
Qed.


Context (structure_exists : Params → bool).

(** X20.  Exporting a workflow and importing the file does not bring the
    workflow back as it was: the import creates a new workflow, under
    the new identifier and with the time of the import, that has the
    name, description and parameters of the exported one and a fresh
    status; what the exported workflow had completed or failed is not
    carried over.  When the exported parameters name a structure file
    that does not exist, the import answers [None] and creates
    nothing. *)
Theorem import_after_export now now1 now2 now3 id new_id file
    (w : World Params) m :
  get_workflow now id (registry w) = Some m →
  now2 ≠ "" →
  (export_workflow now id file w).1 = true ∧
  ((∀ p, params m = Some p → structure_exists p = true) →
   (import_workflow structure_exists now1 now2 new_id file
      (export_workflow now id file w).2).1 = Some new_id ∧
   get_workflow now3 new_id
     (registry (import_workflow structure_exists now1 now2 new_id file
                  (export_workflow now id file w).2).2)
   = Some {| workflow_id := new_id; name := name m;
             description := description m;
             created_at := now2; updated_at := now2;
             status := new_status; params := params m |}) ∧
  (∀ p, params m = Some p → structure_exists p = false →
   import_workflow structure_exists now1 now2 new_id file
     (export_workflow now id file w).2
   = (None, (export_workflow now id file w).2)).
Proof.
  intros Hget Hnow2. unfold export_workflow. rewrite Hget. simpl.
  split; [done|]. split.
  - intros Hvalid. unfold import_workflow. simpl.
    rewrite lookup_insert_eq. simpl.
    unfold service_create_workflow.
    destruct (params m) as [p|] eqn:Hp.
    + rewrite (Hvalid p eq_refl). simpl. split; [done|].
      unfold get_workflow. simpl. rewrite lookup_insert_eq. f_equal.
      unfold from_dict, new_metadata. simpl. by rewrite !decide_False by done.
    + simpl. split; [done|].
      unfold get_workflow. simpl. rewrite lookup_insert_eq. f_equal.
      unfold from_dict, new_metadata. simpl. by rewrite !decide_False by done.
  - intros p Hp Hmissing. unfold import_workflow. simpl.
    rewrite lookup_insert_eq. simpl.
    unfold service_create_workflow. by rewrite Hp, Hmissing.
Qed.

End WithParams.

Lemma metadata_round_trip_witness :
  from_dict (Params := unit) "later"
    (to_dict (new_metadata "2024-05-01T10:00:00" "wf-1" "lysozyme" None
                None None None None))
  = new_metadata "2024-05-01T10:00:00" "wf-1" "lysozyme" None None None
      None None.
Proof. apply metadata_round_trip. discriminate. Defined.

Lemma create_then_get_witness :
  get_workflow "later" "wf-1" one_workflow
  = Some {| workflow_id := "wf-1"; name := "lysozyme";
            description := Some "first run";
            created_at := "2024-05-01T10:00:00";
            updated_at := "2024-05-01T10:00:00";
            status := new_status; params := None |}.
Proof.
  apply (create_then_get (Params := unit) "2024-05-01T10:00:00" "later"
           "wf-1" "lysozyme" (Some "first run") None
           {| documents := ∅; directories := ∅ |}).
  discriminate.
Defined.

Lemma update_workflow_spec_witness :
  get_workflow "t3" "wf-1"
    (update_workflow "t1" "t2" "wf-1" (Some "") (Some "") None None
       one_workflow).2
  = Some {| workflow_id := "wf-1"; name := "lysozyme";
            description := Some "first run";
            created_at := "2024-05-01T10:00:00";
            updated_at := "t2";
            status := new_status; params := None |}.
Proof.
  refine (proj1 (proj2 (proj2 (update_workflow_spec (Params := unit)
            "t1" "t2" "t3" "wf-1" (Some "") (Some "") None None
            one_workflow)
            {| workflow_id := "wf-1"; name := "lysozyme";
               description := Some "first run";
               created_at := "2024-05-01T10:00:00";
               updated_at := "2024-05-01T10:00:00";
               status := new_status; params := None |} _ _ _ _))).
  - vm_compute. reflexivity.
  - reflexivity.
  - discriminate.
  - discriminate.
Defined.

Lemma registry_stays_consistent_witness :
  consistent (delete_workflow "wf-1" one_workflow).2.
Proof.
  refine (proj2 (proj2 (registry_stays_consistent (Params := unit)
            "t" "t" "wf-1" "n" None None None None None one_workflow _))).
  intros id d. unfold one_workflow, create_workflow. simpl.
  destruct (decide ("wf-1" = id)) as [<-|Hne].
  - rewrite lookup_insert_eq. by intros [= <-].
  - rewrite lookup_insert_ne by done. by rewrite lookup_empty.
Defined.


Lemma import_after_export_witness :
  (import_workflow (fun _ : unit => true) "t1" "t2" "wf-9" "saved.json"
     (export_workflow "t0" "wf-1" "saved.json"
        {| registry := one_workflow; other_files := ∅ |}).2).1
  = Some "wf-9".
Proof.
  refine (proj1 (proj1 (proj2 (import_after_export (fun _ : unit => true)
            "t0" "t1" "t2" "t3" "wf-1" "wf-9" "saved.json"
            {| registry := one_workflow; other_files := ∅ |} _ _ _)) _)).
  - vm_compute. reflexivity.
  - discriminate.
  - intros p _. reflexivity.
Defined.

End RegistryFacts.

(** ** Properties of the workflow monitor *)

Module MonitorFacts.

Import Monitor.

Section WithReadings.

Context {F T Params : Type} (zero : F).

Abbreviation Monitors := (gmap string (@MonitorData F T)).

(** X21.  [update_status] cannot report on a workflow whose metadata can
    be read: it reads [workflow.status.total_steps], which
    [SimulationStatus] does not have, and raises.  By then it has stored
    the resource readings and overwritten [progress.current_step] with
    the [current_step] of the workflow's status; the time of the last
    check, the last step and the other progress figures are not touched.
    It returns its report only when the metadata cannot be read, and then
    the progress it reports is the one it found, which it leaves as it
    is, and the last step becomes the [current_step] of that progress. *)
Theorem update_status_raises_on_a_readable_workflow now cpu memory disk
    workflow id (ms : Monitors) data :
  ms !! id = Some data →
  ((update_status (Params := Params) now cpu memory disk workflow id ms).1
   = NoTotalSteps ↔ is_Some workflow) ∧
  (workflow = None →
   (update_status (Params := Params) now cpu memory disk workflow id ms).1
   = Report now
       {| cpu_percent := cpu; memory_percent := memory; disk_usage := disk;
          gpu_usage := gpu_usage (resource_usage data) |}
       (progress data)) ∧
  ∃ data',
    (update_status (Params := Params) now cpu memory disk workflow id ms).2
      !! id = Some data' ∧
    start_time data' = start_time data ∧
    cpu_percent (resource_usage data') = cpu ∧
    memory_percent (resource_usage data') = memory ∧
    disk_usage (resource_usage data') = disk ∧
    gpu_usage (resource_usage data') = gpu_usage (resource_usage data) ∧
    total_steps (progress data') = total_steps (progress data) ∧
    performance (progress data') = performance (progress data) ∧
    elapsed_time (progress data') = elapsed_time (progress data) ∧
    estimated_time (progress data') = estimated_time (progress data) ∧
    (∀ w, workflow = Some w →
       current_step (progress data')
         = StepOf (status_current_step (Registry.status w)) ∧
       last_step data' = last_step data ∧
       last_check data' = last_check data) ∧
    (workflow = None →
       current_step (progress data') = current_step (progress data) ∧
       last_step data' = Some (current_step (progress data)) ∧
       last_check data' = now) ∧
    ∀ id', id' ≠ id →
      (update_status (Params := Params) now cpu memory disk workflow id ms).2
        !! id' = ms !! id'.
Proof.
  intros Hdata. unfold update_status. rewrite Hdata.
  destruct workflow as [w|]; simpl.
  - split; [by split; [eexists|]|]. split; [done|].
    eexists. rewrite lookup_insert_eq. split; [reflexivity|].
    simpl. do 9 (split; [done|]).
    split; [by intros w' [= <-]|]. split; [done|].
    intros id' Hne. by rewrite lookup_insert_ne.
  - split; [split; [done|by intros [? ?]]|]. split; [done|].
    eexists. rewrite lookup_insert_eq. split; [reflexivity|].
    simpl. do 9 (split; [done|]).
    split; [done|]. split; [done|].
    intros id' Hne. by rewrite lookup_insert_ne.
Qed.

Lemma reachable_unmeasured (ms : Monitors) :
  reachable (Params := Params) zero ms →
  ∀ id data, ms !! id = Some data → unmeasured zero data.
Proof.
  induction 1 as [|ms now now' id0 _ IH|ms id0 _ IH
                  |ms now cpu memory disk workflow id0 _ IH];
    intros id data.
  - by rewrite lookup_empty.
  - unfold start_monitoring.
    destruct (ms !! id0) eqn:Hid0; [apply IH|].
    destruct (decide (id0 = id)) as [->|Hne].
    + rewrite lookup_insert_eq. intros [= <-]. by repeat split.
    + rewrite lookup_insert_ne by done. apply IH.
  - unfold stop_monitoring.
    destruct (ms !! id0) eqn:Hid0; [|apply IH].
    destruct (decide (id0 = id)) as [->|Hne].
    + by rewrite lookup_delete_eq.
    + rewrite lookup_delete_ne by done. apply IH.
  - unfold update_status.
    destruct (ms !! id0) as [data0|] eqn:Hid0; [|apply IH].
    destruct (IH id0 data0 Hid0) as (H1 & H2 & H3 & H4 & H5).
    destruct workflow as [w|]; simpl;
      (destruct (decide (id0 = id)) as [->|Hne];
       [rewrite lookup_insert_eq; intros [= <-]; by repeat split
       |rewrite lookup_insert_ne by done; apply IH]).
Qed.

(** X22.  The monitor never measures anything: in every state a
    [WorkflowMonitor] can reach through [start_monitoring],
    [stop_monitoring] and [update_status], the total number of steps of
    every monitored workflow is [0] and its elapsed time, estimated time
    and performance are the [0.0] they started with, so
    [get_performance_stats] answers the empty dictionary or three
    zeros. *)
Theorem performance_is_never_measured (ms : Monitors) id :
  reachable (Params := Params) zero ms →
  get_performance_stats id ms = None ∨
  get_performance_stats id ms = Some (zero, zero, zero).
Proof.
  intros Hreach. unfold get_performance_stats.
  destruct (ms !! id) as [data|] eqn:Hid; [right|by left].
  destruct (reachable_unmeasured ms Hreach id data Hid)
    as (_ & -> & -> & -> & _).
  done.
Qed.


End WithReadings.

Lemma update_status_raises_on_a_readable_workflow_witness :
  let r := update_status (F := Z) (T := string) (Params := unit) "t1" 12 40 71
             (Registry.get_workflow "t1" "wf-1" Registry.one_workflow) "wf-1"
             (start_monitoring 0 "t0" "t0" "wf-1" ∅) in
  r.1 = NoTotalSteps ∧
  ∃ data', r.2 !! "wf-1" = Some data' ∧
           current_step (progress data') = StepOf None ∧
           cpu_percent (resource_usage data') = 12 ∧
           last_check data' = "t0".
Proof.
  intros r.
  destruct (update_status_raises_on_a_readable_workflow (F := Z)
              (T := string) (Params := unit) "t1" 12 40 71
              (Registry.get_workflow "t1" "wf-1" Registry.one_workflow)
              "wf-1" (start_monitoring 0 "t0" "t0" "wf-1" ∅)
              {| start_time := "t0"; last_check := "t0";
                 resource_usage := new_usage 0; progress := new_progress 0;
                 last_step := None |})
    as (Hraises & _ & data' & Hdata & _ & Hcpu & _ & _ & _ & _ & _ & _ & _
        & Hread & _).
  { vm_compute. reflexivity. }
  split.
  - apply Hraises. vm_compute. by eexists.
  - exists data'. split; [done|].
    destruct (Registry.get_workflow "t1" "wf-1" Registry.one_workflow)
      as [w|] eqn:Hw; [|vm_compute in Hw; discriminate Hw].
    destruct (Hread w eq_refl) as (Hstep & _ & Hcheck).
    split; [|by split].
    rewrite Hstep. vm_compute in Hw. by injection Hw as <-.
Defined.

Lemma performance_is_never_measured_witness :
  get_performance_stats "wf-1"
    (update_status (F := Z) (T := string) (Params := unit) "t1" 12 40 71 None
       "wf-1" (start_monitoring 0 "t0" "t0" "wf-1" ∅)).2
  = Some (0, 0, 0).
Proof.
  destruct (performance_is_never_measured (F := Z) (T := string)
              (Params := unit) 0
              (update_status (Params := unit) "t1" 12 40 71 None "wf-1"
                 (start_monitoring 0 "t0" "t0" "wf-1" ∅)).2 "wf-1")
    as [Hnone|Hzero].
  - apply reach_update, reach_start, reach_empty.
  - vm_compute in Hnone. discriminate Hnone.
  - exact Hzero.
Defined.

End MonitorFacts.
